(** * Phasmo Expense Calculator: the EMF tier, its sound wrapper and the
      window handlers of [app/main.py], embedded and verified. *)

From Stdlib Require Import QArith Qpower.
From stdpp Require Import gmap strings list fin_maps pretty sorting.

Local Open Scope Z_scope.

(** ** Python numbers

    [total] is annotated [float], and Python compares a float with the
    integer literals of the thresholds by exact value.  A finite double is
    [m * 2^e] for integers [m] and [e]; it is kept in that form and ordered
    through its exact rational value.  The sign of a zero plays no part in
    any comparison and is not kept. *)

Inductive pyfloat : Type :=
  | FNan
  | FInf (negative : bool)
  | FFin (m e : Z).

Inductive pynum : Type :=
  | PInt (z : Z)
  | PFloat (f : pyfloat).

(** The value of a number on the extended rational line. *)
Inductive xval : Type :=
  | XNan
  | XNegInf
  | XFin (q : Q)
  | XPosInf.

Definition float_value (f : pyfloat) : xval :=
  match f with
  | FNan => XNan
  | FInf true => XNegInf
  | FInf false => XPosInf
  | FFin m e => XFin (inject_Z m * Qpower 2 e)
  end.

Definition value (n : pynum) : xval :=
  match n with
  | PInt z => XFin (inject_Z z)
  | PFloat f => float_value f
  end.

(** Python's [a <= b]: false as soon as one side is a NaN. *)
Definition xle (a b : xval) : bool :=
  match a, b with
  | XNan, _ | _, XNan => false
  | XNegInf, _ => true
  | _, XPosInf => true
  | XFin p, XFin q => Qle_bool p q
  | _, _ => false
  end.

Definition py_le (a b : pynum) : bool := xle (value a) (value b).
Definition py_ge (a b : pynum) : bool := py_le b a.
Definition py_eq (a b : pynum) : bool := py_le a b && py_le b a.

(** ** [emf_level_from_total] (main.py, lines 86-91) *)

Definition emf_level_from_total (total : pynum) : Z :=
  if py_ge total (PInt 2000) then 5
  else if py_ge total (PInt 1500) then 4
  else if py_ge total (PInt 1000) then 3
  else if py_ge total (PInt 500) then 2
  else 1.

(** ** Exceptions and the state-and-exception monad

    Only instances of [Exception] are modelled: a class name and the text
    [str(e)] gives.  A Python method mutates [self] and may raise half-way,
    leaving the mutations done so far in place: a computation maps the
    state before to an outcome and the state after. *)

Record exn : Type := Exn { exn_class : string; exn_msg : string }.

Inductive result (A : Type) : Type :=
  | Ok (a : A)
  | Raise (e : exn).
Arguments Ok {A} a.
Arguments Raise {A} e.

Definition M (S A : Type) : Type := S → result A * S.

Global Instance M_ret {S} : MRet (M S) := λ A a s, (Ok a, s).
Global Instance M_bind {S} : MBind (M S) := λ A B f c s,
  match c s with
  | (Ok a, s') => f a s'
  | (Raise e, s') => (Raise e, s')
  end.

Definition get {S} : M S S := λ s, (Ok s, s).
Definition modify {S} (f : S → S) : M S unit := λ s, (Ok tt, f s).
Definition raise {S A} (e : exn) : M S A := λ s, (Raise e, s).
Definition lift {S A} (r : result A) : M S A := λ s, (r, s).

(** [try: c  except Exception as e: h e] *)
Definition try_except {S A} (c : M S A) (h : exn → M S A) : M S A := λ s,
  match c s with
  | (Ok a, s') => (Ok a, s')
  | (Raise e, s') => h e s'
  end.

(** Runs a computation over a component of a larger state. *)
Definition zoom {S T A} (proj : S → T) (upd : T → S → S) (c : M T A) : M S A :=
  λ s, let '(r, t) := c (proj s) in (r, upd t s).

(** [for x in xs: body x] *)
Fixpoint for_each {S A} (xs : list A) (body : A → M S unit) : M S unit :=
  match xs with
  | [] => mret tt
  | x :: rest => body x ≫= λ _, for_each rest body
  end.

Definition returned {A} (r : result A) : bool :=
  match r with Ok _ => true | Raise _ => false end.

(** ** [QSoundEffect], as far as the program uses it *)

Record QSoundEffect : Type := {
  source : string;
  loopCount : Z;
  volume : pyfloat;
  playing : bool;
}.

(** The toolkit's methods.  They belong to PySide6, not to this program,
    and a binding call may raise ([stop] guards against it), so the wrapper
    is written against this interface. *)
Class SoundBackend : Type := {
  q_new : result QSoundEffect;
  q_setSource : string → QSoundEffect → result QSoundEffect;
  q_setLoopCount : Z → QSoundEffect → result QSoundEffect;
  q_setVolume : pyfloat → QSoundEffect → result QSoundEffect;
  q_play : QSoundEffect → result QSoundEffect;
  q_stop : QSoundEffect → result QSoundEffect;
  q_isPlaying : QSoundEffect → result bool;
}.

(** The documented behaviour of the toolkit: no call fails. *)
Definition qt : SoundBackend := {|
  q_new := Ok {| source := ""; loopCount := 1; volume := FFin 1 0; playing := false |};
  q_setSource := λ src s,
    Ok {| source := src; loopCount := loopCount s; volume := volume s; playing := playing s |};
  q_setLoopCount := λ n s,
    Ok {| source := source s; loopCount := n; volume := volume s; playing := playing s |};
  q_setVolume := λ v s,
    Ok {| source := source s; loopCount := loopCount s; volume := v; playing := playing s |};
  q_play := λ s,
    Ok {| source := source s; loopCount := loopCount s; volume := volume s; playing := true |};
  q_stop := λ s,
    Ok {| source := source s; loopCount := loopCount s; volume := volume s; playing := false |};
  q_isPlaying := λ s, Ok (playing s);
|}.

(** The double nearest to the literal [0.85]. *)
Definition vol_085 : pyfloat := FFin 7656119366529843 (-53).

(** ** [EMFSound] (main.py, lines 38-84) *)

Record EMFSound : Type := {
  enabled : bool;
  cur_level : Z;
  effects : gmap Z QSoundEffect;
}.

Definition set_enabled (b : bool) (self : EMFSound) : EMFSound :=
  {| enabled := b; cur_level := cur_level self; effects := effects self |}.
Definition set_cur_level (l : Z) (self : EMFSound) : EMFSound :=
  {| enabled := enabled self; cur_level := l; effects := effects self |}.
Definition set_effects (e : gmap Z QSoundEffect) (self : EMFSound) : EMFSound :=
  {| enabled := enabled self; cur_level := cur_level self; effects := e |}.

(** What the module and the disk give the constructor: [HAVE_SOUND], the
    outcome of the guarded import of lines 15-21, and which of the files
    [emf<lvl>.wav] exist. *)
Record SoundEnv : Type := {
  HAVE_SOUND : bool;
  wav_exists : Z → bool;
}.

(** Lines 15-21: the import of [QSoundEffect] inside [try]/[except]. *)
Definition have_sound_of_import (import : result unit) : bool :=
  match import with Ok _ => true | Raise _ => false end.

Definition wav_path (assets_dir : string) (lvl : Z) : string :=
  assets_dir +:+ "/emf" +:+ pretty lvl +:+ ".wav".

Section Sound.
Context {backend : SoundBackend}.

(** [s.method(...)] on the effect stored under [k], which is present. *)
Definition on_effect (k : Z) (f : QSoundEffect → result QSoundEffect)
    : M EMFSound unit := λ self,
  match effects self !! k with
  | Some s =>
      match f s with
      | Ok s' => (Ok tt, set_effects (<[k := s']> (effects self)) self)
      | Raise e => (Raise e, self)
      end
  | None => (Ok tt, self)
  end.

Definition new_effect (src : string) : result QSoundEffect :=
  match q_new with
  | Ok s0 =>
      match q_setSource src s0 with
      | Ok s1 =>
          match q_setLoopCount 999999 s1 with
          | Ok s2 => q_setVolume vol_085 s2
          | Raise e => Raise e
          end
      | Raise e => Raise e
      end
  | Raise e => Raise e
  end.

(** The body of [__init__] after the first three assignments. *)
Definition load_effects (env : SoundEnv) (assets_dir : string) : M EMFSound unit :=
  self ← get;
  if enabled self then
    for_each [2; 3; 4; 5] (λ lvl,
      if wav_exists env lvl then
        s ← lift (new_effect (wav_path assets_dir lvl));
        modify (λ self, set_effects (<[lvl := s]> (effects self)) self)
      else mret tt)
  else mret tt.

(** [EMFSound(assets_dir, enabled)]; the argument is the truth value
    [bool(enabled)].  A constructor that raises yields no object. *)
Definition EMFSound_init (env : SoundEnv) (assets_dir : string) (enabled : bool)
    : result EMFSound :=
  match load_effects env assets_dir
          {| enabled := enabled && HAVE_SOUND env; cur_level := 1; effects := ∅ |} with
  | (Ok _, self) => Ok self
  | (Raise e, _) => Raise e
  end.

(** [try: s.stop()  except Exception: pass] for one effect. *)
Definition stop_quietly (s : QSoundEffect) : QSoundEffect :=
  match q_stop s with
  | Ok s' => s'
  | Raise _ => s
  end.

Definition stop : M EMFSound unit :=
  modify (λ self, set_effects (stop_quietly <$> effects self) self) ;;
  modify (set_cur_level 1).

Definition set_muted (env : SoundEnv) (muted : bool) : M EMFSound unit :=
  modify (set_enabled (negb muted && HAVE_SOUND env)) ;;
  if muted then stop else mret tt.

Definition clamp_level (level : Z) : Z := Z.max 1 (Z.min 5 level).

Definition play_for_level (level : Z) : M EMFSound unit :=
  self ← get;
  if negb (enabled self) || bool_decide (effects self = ∅) then stop
  else
    let level := clamp_level level in
    if bool_decide (level = 1) then stop
    else if bool_decide (level = cur_level self) then
      match effects self !! level with
      | Some eff =>
          is_playing ← lift (q_isPlaying eff);
          if negb is_playing then on_effect level q_play else mret tt
      | None => mret tt
      end
    else
      stop ;;
      modify (set_cur_level level) ;;
      self ← get;
      match effects self !! level with
      | Some _ => on_effect level (q_setVolume vol_085) ;; on_effect level q_play
      | None => mret tt
      end.
End Sound.

(** ** Python values met by the window *)

Inductive pyval : Type :=
  | VNone
  | VStr (s : string)
  | VNum (n : pynum).

(** [bool(v)] *)
Definition truthy (v : pyval) : bool :=
  match v with
  | VNone => false
  | VStr s => negb (bool_decide (s = ""))
  | VNum n => negb (py_eq n (PInt 0))
  end.

(** [a or b] *)
Definition py_or (a b : pyval) : pyval := if truthy a then a else b.

(** ** The widgets of [MainWindow] that the handlers write *)

Record TableItem : Type := {
  text : string;
  textAlignment : option Z;
}.

Record TableRow : Type := {
  cells : gmap Z TableItem;
  rowHeight : option Z;
}.

Inductive Dialog : Type :=
  | Information (title message : string)
  | Critical (title message : string).

Definition AlignRight : Z := 2.
Definition AlignHCenter : Z := 4.
Definition AlignVCenter : Z := 128.

Definition columnCount : Z := 4.

Definition empty_row : TableRow := {| cells := ∅; rowHeight := None |}.

Definition setTextAlignment (a : Z) (it : TableItem) : TableItem :=
  {| text := text it; textAlignment := Some a |}.

Definition row_setItem (c : Z) (it : TableItem) (r : TableRow) : TableRow :=
  if bool_decide (0 ≤ c < columnCount)
  then {| cells := <[c := it]> (cells r); rowHeight := rowHeight r |}
  else r.

Definition row_setHeight (h : Z) (r : TableRow) : TableRow :=
  {| cells := cells r; rowHeight := Some h |}.

Definition colors : gmap Z string :=
  <[1 := "#6eb6ff"]> (<[2 := "#36b24a"]> (<[3 := "#ffd84a"]>
    (<[4 := "#ff8f2b"]> (<[5 := "#ff3737"]> ∅)))).

(** What the interpreter and the toolkit do with the values this program
    hands them, where the program does not decide it: the digits of a
    formatted float, and an item built from something that is no string. *)
Class Host : Type := {
  format_2f : pynum → string;
  repr_float : pyfloat → string;
  item_of_other : pyval → result TableItem;
}.

(** The sibling modules [app.db], [app.export_pdf], [app.manage],
    [app.settings_dialog]: they act on the database file and the files on
    disk, and may raise.  [missing_key k] is what their rows and mappings
    raise when read at a key they lack. *)
Class AppModules : Type := {
  Disk : Type;
  missing_key : string → exn;
  list_month : Z → Z → M Disk (list (gmap string pyval));
  month_total : Z → Z → M Disk pynum;
  add_expense : pyval → pyval → pyval → pyval → M Disk unit;
  get_settings : M Disk (gmap string pyval);
  export_month_pdf : string → Z → Z → pyval → M Disk unit;
  manage_dialog : Z → Z → M Disk unit;
  settings_dialog : M Disk (bool * bool * pyval);
}.

(** ** [MainWindow] (main.py, lines 94-248) *)

Section Window.
Context {backend : SoundBackend} {host : Host} {modules : AppModules}.

(** The part of the window, and of the world behind it, that the
    handlers read or write.  [cmb_year] is the year whose text is the
    current item of the year box, [cmb_month] the current index of the
    month box, [shown] the message boxes opened so far, latest last. *)
Record MainWindow : Type := {
  disk : Disk;
  sfx : EMFSound;
  cmb_year : Z;
  cmb_month : Z;
  lbl_total : string;
  emf_dot : string;
  lbl_emf : string;
  table : list TableRow;
  shown : list Dialog;
}.

Definition set_disk (d : Disk) (w : MainWindow) : MainWindow :=
  {| disk := d; sfx := sfx w; cmb_year := cmb_year w; cmb_month := cmb_month w;
     lbl_total := lbl_total w; emf_dot := emf_dot w; lbl_emf := lbl_emf w;
     table := table w; shown := shown w |}.
Definition set_sfx (s : EMFSound) (w : MainWindow) : MainWindow :=
  {| disk := disk w; sfx := s; cmb_year := cmb_year w; cmb_month := cmb_month w;
     lbl_total := lbl_total w; emf_dot := emf_dot w; lbl_emf := lbl_emf w;
     table := table w; shown := shown w |}.
Definition set_lbl_total (t : string) (w : MainWindow) : MainWindow :=
  {| disk := disk w; sfx := sfx w; cmb_year := cmb_year w; cmb_month := cmb_month w;
     lbl_total := t; emf_dot := emf_dot w; lbl_emf := lbl_emf w;
     table := table w; shown := shown w |}.
Definition set_emf_dot (t : string) (w : MainWindow) : MainWindow :=
  {| disk := disk w; sfx := sfx w; cmb_year := cmb_year w; cmb_month := cmb_month w;
     lbl_total := lbl_total w; emf_dot := t; lbl_emf := lbl_emf w;
     table := table w; shown := shown w |}.
Definition set_lbl_emf (t : string) (w : MainWindow) : MainWindow :=
  {| disk := disk w; sfx := sfx w; cmb_year := cmb_year w; cmb_month := cmb_month w;
     lbl_total := lbl_total w; emf_dot := emf_dot w; lbl_emf := t;
     table := table w; shown := shown w |}.
Definition set_table (t : list TableRow) (w : MainWindow) : MainWindow :=
  {| disk := disk w; sfx := sfx w; cmb_year := cmb_year w; cmb_month := cmb_month w;
     lbl_total := lbl_total w; emf_dot := emf_dot w; lbl_emf := lbl_emf w;
     table := t; shown := shown w |}.
Definition set_shown (d : list Dialog) (w : MainWindow) : MainWindow :=
  {| disk := disk w; sfx := sfx w; cmb_year := cmb_year w; cmb_month := cmb_month w;
     lbl_total := lbl_total w; emf_dot := emf_dot w; lbl_emf := lbl_emf w;
     table := table w; shown := d |}.

(** Calls into the sibling modules and into [self._sfx]. *)
Definition on_disk {A} (c : M Disk A) : M MainWindow A := zoom disk set_disk c.
Definition on_sfx {A} (c : M EMFSound A) : M MainWindow A := zoom sfx set_sfx c.

(** [d[k]] on a row or mapping handed over by a sibling module. *)
Definition getitem (d : gmap string pyval) (k : string) : result pyval :=
  match d !! k with
  | Some v => Ok v
  | None => Raise (missing_key k)
  end.

(** [QTableWidgetItem(v)] *)
Definition QTableWidgetItem (v : pyval) : result TableItem :=
  match v with
  | VStr s => Ok {| text := s; textAlignment := None |}
  | _ => item_of_other v
  end.

(** [f"{v:.2f}"] *)
Definition fmt_2f (v : pyval) : result string :=
  match v with
  | VNum n => Ok (format_2f n)
  | VNone => Raise (Exn "TypeError" "unsupported format string passed to NoneType.__format__")
  | VStr _ => Raise (Exn "ValueError" "Unknown format code 'f' for object of type 'str'")
  end.

(** [f"{v}"] *)
Definition fmt_plain (v : pyval) : string :=
  match v with
  | VNone => "None"
  | VStr s => s
  | VNum (PInt z) => pretty z
  | VNum (PFloat f) => repr_float f
  end.

(** The table widget. *)
Definition setRowCount (n : nat) : M MainWindow unit :=
  modify (λ w, set_table (take n (table w) ++ replicate (n - length (table w)) empty_row) w).
Definition rowCount : M MainWindow nat := λ w, (Ok (length (table w)), w).
Definition insertRow (i : nat) : M MainWindow unit :=
  modify (λ w,
    if bool_decide (i ≤ length (table w))%nat
    then set_table (take i (table w) ++ empty_row :: drop i (table w)) w
    else w).
Definition setItem (i : nat) (c : Z) (it : TableItem) : M MainWindow unit :=
  modify (λ w, set_table (alter (row_setItem c it) i (table w)) w).
Definition setRowHeight (i : nat) (h : Z) : M MainWindow unit :=
  modify (λ w, set_table (alter (row_setHeight h) i (table w)) w).

(** [QMessageBox.information] and [QMessageBox.critical] *)
Definition information (title message : string) : M MainWindow unit :=
  modify (λ w, set_shown (shown w ++ [Information title message]) w).
Definition critical (title message : string) : M MainWindow unit :=
  modify (λ w, set_shown (shown w ++ [Critical title message]) w).

Definition _current_y_m : M MainWindow (Z * Z) :=
  λ w, (Ok (cmb_year w, cmb_month w + 1), w).

Definition style_of (color : string) : string :=
  "background:" +:+ color +:+ ";border-radius:7px;border:1px solid #2a2a2a;".

Definition _set_emf_ui (level : Z) : M MainWindow unit :=
  match colors !! level with
  | Some color =>
      modify (set_emf_dot (style_of color)) ;;
      modify (set_lbl_emf ("EMF " +:+ pretty level))
  | None => raise (Exn "KeyError" (pretty level))
  end.

(** The body of the loop of [reload] for one row. *)
Definition render_row (r : gmap string pyval) : M MainWindow unit :=
  i ← rowCount;
  insertRow i ;;
  date ← lift (getitem r "date");
  it0 ← lift (QTableWidgetItem date);
  setItem i 0 it0 ;;
  category ← lift (getitem r "category");
  it1 ← lift (QTableWidgetItem category);
  setItem i 1 it1 ;;
  description ← lift (getitem r "description");
  desc ← lift (QTableWidgetItem (py_or description (VStr "")));
  setItem i 2 (setTextAlignment (Z.lor AlignHCenter AlignVCenter) desc) ;;
  amount ← lift (getitem r "amount");
  amount_text ← lift (fmt_2f amount);
  amt ← lift (QTableWidgetItem (VStr amount_text));
  setItem i 3 (setTextAlignment (Z.lor AlignRight AlignVCenter) amt) ;;
  setRowHeight i 22.

Definition reload : M MainWindow unit :=
  '(y, m) ← _current_y_m;
  rows ← on_disk (list_month y m);
  setRowCount 0 ;;
  for_each rows render_row ;;
  settings ← on_disk get_settings;
  cur ← lift (getitem settings "currency");
  total ← on_disk (month_total y m);
  modify (set_lbl_total ("Monthly Total: " +:+ fmt_plain cur +:+ format_2f total)) ;;
  let lvl := emf_level_from_total total in
  _set_emf_ui lvl ;;
  on_sfx (play_for_level lvl).

(** [on_add]: [accepted] is the truth of [dlg.exec()], [v] what
    [dlg.values()] returns. *)
Definition on_add (accepted : bool) (v : gmap string pyval) : M MainWindow unit :=
  if accepted then
    date ← lift (getitem v "date");
    category ← lift (getitem v "category");
    description ← lift (getitem v "description");
    amount ← lift (getitem v "amount");
    on_disk (add_expense date category description amount) ;;
    reload
  else mret tt.

Definition on_manage : M MainWindow unit :=
  '(y, m) ← _current_y_m;
  on_disk (manage_dialog y m) ;;
  reload.

Definition on_settings (env : SoundEnv) : M MainWindow unit :=
  '(ok, enabled, cur) ← on_disk settings_dialog;
  if (ok : bool) then
    on_sfx (set_muted env (negb enabled)) ;;
    reload
  else mret tt.

(** [on_export]: [path] is the file name the save dialog returns, empty
    when the dialog is cancelled. *)
Definition on_export (path : string) : M MainWindow unit :=
  '(y, m) ← _current_y_m;
  settings ← on_disk get_settings;
  cur ← lift (getitem settings "currency");
  if bool_decide (path = "") then mret tt
  else
    try_except
      (on_disk (export_month_pdf path y m cur) ;;
       information "Export" "PDF saved.")
      (λ e, critical "Export failed" (exn_msg e)).
End Window.

(** The call of [emf_level_from_total] as a step of a program over any
    state [S]: the body reads no global and assigns nothing. *)
Definition emf_level_call {S} (total : pynum) : M S Z :=
  mret (emf_level_from_total total).

(** ** Vocabulary of the statements about [EMFSound] *)

(** The state [stop] leaves behind. *)
Definition stopped {backend : SoundBackend} (self : EMFSound) : EMFSound :=
  {| enabled := enabled self; cur_level := 1;
     effects := stop_quietly <$> effects self |}.

Definition all_stopped (self : EMFSound) : Prop :=
  ∀ k eff, effects self !! k = Some eff → playing eff = false.

(** No clip but the one of tier [l] plays. *)
Definition only_playing (l : Z) (self : EMFSound) : Prop :=
  ∀ k eff, effects self !! k = Some eff → playing eff = true → k = l.

(** The level after considering enablement. *)
Definition effective_level (self : EMFSound) (level : Z) : Z :=
  if enabled self then clamp_level level else 1.

(** The clip [eff] once (re)started by the switch branch. *)
Definition started (eff : QSoundEffect) : QSoundEffect :=
  {| source := source eff; loopCount := loopCount eff;
     volume := vol_085; playing := true |}.

(** The claim on [play_for_level] read to the letter, on the documented
    toolkit: stopped at level 1; switched and started otherwise. *)
Definition play_for_level_as_stated (self : EMFSound) (level : Z) : Prop :=
  let self' := (play_for_level (backend := qt) level self).2 in
  (effective_level self level = 1 → all_stopped self') ∧
  (2 ≤ level ≤ 5 → enabled self = true → level ≠ cur_level self →
     (∀ k eff, effects self' !! k = Some eff → k ≠ level → playing eff = false) ∧
     (∃ eff, effects self' !! level = Some eff ∧ playing eff = true) ∧
     cur_level self' = level).

(** Sound switched on, but no [emf*.wav] was found when the object was
    built. *)
Definition sound_without_clips : EMFSound :=
  {| enabled := true; cur_level := 1; effects := ∅ |}.

Definition clip (lvl : Z) (is_playing : bool) : QSoundEffect :=
  {| source := wav_path "assets" lvl; loopCount := 999999;
     volume := vol_085; playing := is_playing |}.

(** Sound switched on, the clips of tiers 2 and 3 loaded, tier 2 playing. *)
Definition sound_at_2 : EMFSound :=
  {| enabled := true; cur_level := 2;
     effects := <[2 := clip 2 true]> (<[3 := clip 3 false]> ∅) |}.

(** The calls a client can make on an [EMFSound]. *)
Inductive sound_op : Type :=
  | SetMuted (muted : bool)
  | Stop
  | PlayForLevel (level : Z).

Definition run_op {backend : SoundBackend} (env : SoundEnv) (op : sound_op)
    : M EMFSound unit :=
  match op with
  | SetMuted muted => set_muted env muted
  | Stop => stop
  | PlayForLevel level => play_for_level level
  end.

(** The object after a sequence of calls.  A call that raises leaves the
    object as the exception found it, and the next call runs on that. *)
Definition run_ops {backend : SoundBackend} (env : SoundEnv) (ops : list sound_op)
    (self : EMFSound) : EMFSound :=
  foldl (λ s op, (run_op env op s).2) self ops.

Definition level_inv (self : EMFSound) : Prop :=
  1 ≤ cur_level self ≤ 5 ∧ (enabled self = false → cur_level self = 1).

(** [level_inv], and sound is enabled only where the import succeeded. *)
Definition level_inv_in (env : SoundEnv) (self : EMFSound) : Prop :=
  level_inv self ∧ (enabled self = true → HAVE_SOUND env = true).

(** Every [emf*.wav] is on disk and the import succeeded. *)
Definition full_env : SoundEnv := {| HAVE_SOUND := true; wav_exists := λ _, true |}.

(** The import failed. *)
Definition silent_env : SoundEnv := {| HAVE_SOUND := false; wav_exists := λ _, true |}.

(** A toolkit whose [stop] raises. *)
Definition qt_stop_raises : SoundBackend := {|
  q_new := @q_new qt;
  q_setSource := @q_setSource qt;
  q_setLoopCount := @q_setLoopCount qt;
  q_setVolume := @q_setVolume qt;
  q_play := @q_play qt;
  q_stop := λ _, Raise (Exn "RuntimeError" "Internal C++ object already deleted.");
  q_isPlaying := @q_isPlaying qt;
|}.

(** ** Vocabulary of the statements about the window *)

(** The invariant of [EMFSound] on the documented toolkit: a clip that
    plays is the clip of [cur_level]. *)
Definition sound_inv (self : EMFSound) : Prop := only_playing (cur_level self) self.

Definition item (t : string) (a : option Z) : TableItem :=
  {| text := t; textAlignment := a |}.

(** The table row of an expense record, from its four fields: date,
    category, description (empty when missing or empty) and the amount with
    two decimals; [None] when a field is absent or of another type. *)
Definition rendered {host : Host} (r : gmap string pyval) : option TableRow :=
  match r !! "date", r !! "category", r !! "description", r !! "amount" with
  | Some (VStr date), Some (VStr category), Some description, Some (VNum amount) =>
      match py_or description (VStr "") with
      | VStr desc =>
          Some {| cells :=
                    <[3 := item (format_2f amount) (Some (Z.lor AlignRight AlignVCenter))]>
                    (<[2 := item desc (Some (Z.lor AlignHCenter AlignVCenter))]>
                    (<[1 := item category None]>
                    (<[0 := item date None]> ∅)));
                  rowHeight := Some 22 |}
      | _ => None
      end
  | _, _, _, _ => None
  end.


(** ** A small host and store, for the examples *)

(** Whole numbers are printed exactly; the digits of a float are not
    worked out. *)
Definition plain_host : Host := {|
  format_2f := λ n, match n with PInt z => pretty z +:+ ".00" | PFloat _ => "<float>" end;
  repr_float := λ _, "<float>";
  item_of_other := λ _, Raise (Exn "TypeError" "QTableWidgetItem: wrong argument type");
|}.

Record MemDisk : Type := {
  expenses : list (gmap string pyval);
  saved_settings : gmap string pyval;
  read_only : bool;
  written : list string;
}.

Definition expense (date category description : string) (amount : Z)
    : gmap string pyval :=
  <["date" := VStr date]> (<["category" := VStr category]>
    (<["description" := VStr description]> (<["amount" := VNum (PInt amount)]> ∅))).

Definition amount_of (r : gmap string pyval) : Z :=
  match r !! "amount" with
  | Some (VNum (PInt z)) => z
  | _ => 0
  end.

(** A store that keeps one month of expenses in memory, with whole
    amounts, and refuses to write a PDF when the disk is read-only. *)
Definition mem_modules : AppModules := {|
  Disk := MemDisk;
  missing_key := λ k, Exn "KeyError" k;
  list_month := λ _ _ d, (Ok (expenses d), d);
  month_total := λ _ _ d, (Ok (PInt (foldr (λ r acc, amount_of r + acc) 0 (expenses d))), d);
  add_expense := λ date category description amount d,
    (Ok tt,
     {| expenses := expenses d ++
          [<["date" := date]> (<["category" := category]>
             (<["description" := description]> (<["amount" := amount]> ∅)))];
        saved_settings := saved_settings d; read_only := read_only d;
        written := written d |});
  get_settings := λ d, (Ok (saved_settings d), d);
  export_month_pdf := λ path _ _ _ d,
    if read_only d then (Raise (Exn "PermissionError" "Permission denied"), d)
    else (Ok tt, {| expenses := expenses d; saved_settings := saved_settings d;
                    read_only := read_only d; written := written d ++ [path] |});
  manage_dialog := λ _ _ d, (Ok tt, d);
  settings_dialog := λ d, (Ok (true, true, VStr "$"), d);
|}.

Definition mem_disk (ro : bool) : MemDisk :=
  {| expenses := [expense "2024-05-01" "Rent" "" 900; expense "2024-05-03" "Food" "market" 640];
     saved_settings := <["currency" := VStr "$"]> (<["sound_enabled" := VNum (PInt 1)]> ∅);
     read_only := ro; written := [] |}.

(** The window over that store, before its first [reload]. *)
Definition mem_window (ro : bool) : @MainWindow mem_modules :=
  {| disk := (mem_disk ro : @Disk mem_modules); sfx := sound_at_2; cmb_year := 2024; cmb_month := 4;
     lbl_total := "Monthly Total: £0.00"; emf_dot := style_of "#6eb6ff";
     lbl_emf := "EMF 1"; table := []; shown := [] |}.


(** ** Vocabulary of the further statements *)

(** The clip the constructor builds for tier [lvl]. *)
Definition loaded_clip (assets_dir : string) (lvl : Z) (is_playing : bool) : QSoundEffect :=
  {| source := wav_path assets_dir lvl; loopCount := 999999;
     volume := vol_085; playing := is_playing |}.

(** Every stored clip is the one built for its tier, playing or not. *)
Definition clips_as_loaded (env : SoundEnv) (assets_dir : string) (self : EMFSound) : Prop :=
  ∀ lvl eff, effects self !! lvl = Some eff →
    2 ≤ lvl ≤ 5 ∧ wav_exists env lvl = true ∧
    eff = loaded_clip assets_dir lvl (playing eff).

(** Lines 109-111 of [MainWindow.__init__]: the wrapper is built from the
    saved setting and then synchronised with it; [enabled] is the truth
    value of [settings["sound_enabled"]]. *)
Definition init_sfx {backend : SoundBackend} (env : SoundEnv) (assets_dir : string)
    (enabled : bool) : result EMFSound :=
  match EMFSound_init env assets_dir enabled with
  | Ok self =>
      match set_muted env (negb enabled) self with
      | (Ok _, self') => Ok self'
      | (Raise e, _) => Raise e
      end
  | Raise e => Raise e
  end.

(** A store whose second record has lost its date, and the window over it. *)
Definition torn_disk : MemDisk :=
  {| expenses := [expense "2024-05-01" "Rent" "" 900;
                  delete "date" (expense "2024-05-03" "Food" "market" 640)];
     saved_settings := <["currency" := VStr "$"]> ∅;
     read_only := false; written := [] |}.

Definition torn_window : @MainWindow mem_modules :=
  {| disk := (torn_disk : @Disk mem_modules); sfx := sound_at_2;
     cmb_year := 2024; cmb_month := 4;
     lbl_total := "Monthly Total: $0.00"; emf_dot := style_of "#6eb6ff";
     lbl_emf := "EMF 1"; table := []; shown := [] |}.

(** A settings dialog that is accepted with sound switched off. *)
Definition muting_modules : AppModules := {|
  Disk := MemDisk;
  missing_key := @missing_key mem_modules;
  list_month := @list_month mem_modules;
  month_total := @month_total mem_modules;
  add_expense := @add_expense mem_modules;
  get_settings := @get_settings mem_modules;
  export_month_pdf := @export_month_pdf mem_modules;
  manage_dialog := @manage_dialog mem_modules;
  settings_dialog := λ d, (Ok (true, false, VStr "$"), d);
|}.

Definition muting_window : @MainWindow muting_modules :=
  {| disk := (mem_disk false : @Disk muting_modules); sfx := sound_at_2;
     cmb_year := 2024; cmb_month := 4;
     lbl_total := "Monthly Total: $0.00"; emf_dot := style_of "#6eb6ff";
     lbl_emf := "EMF 1"; table := []; shown := [] |}.

(** ** The year and month boxes (main.py, lines 184-195)

    A [QComboBox] as far as the helpers use it: its texts and the current
    index, -1 when nothing is selected.  The signal that an index change
    sends to [reload] does not touch the boxes and is not part of this. *)

Record QComboBox : Type := {
  items : list string;
  currentIndex : Z;
}.

Definition new_box : QComboBox := {| items := []; currentIndex := -1 |}.

(** The first item added to an empty box becomes the current one. *)
Definition addItem (t : string) (b : QComboBox) : QComboBox :=
  {| items := items b ++ [t];
     currentIndex := if bool_decide (items b = []) then 0 else currentIndex b |}.

Definition setCurrentIndex (i : Z) (b : QComboBox) : QComboBox :=
  {| items := items b;
     currentIndex := if bool_decide (0 ≤ i < Z.of_nat (length (items b))) then i else -1 |}.

(** The index of the first item with that text, -1 when there is none. *)
Definition findText (t : string) (b : QComboBox) : Z :=
  match list_find (λ x, x = t) (items b) with
  | Some (i, _) => Z.of_nat i
  | None => -1
  end.

(** On a box that is not editable: select the item with that text, if any. *)
Definition setCurrentText (t : string) (b : QComboBox) : QComboBox :=
  let i := findText t b in
  if bool_decide (0 ≤ i) then setCurrentIndex i b else b.

Definition currentText (b : QComboBox) : string :=
  if bool_decide (0 ≤ currentIndex b)
  then default "" (items b !! Z.to_nat (currentIndex b))
  else "".

(** [sorted(set(ys))] on integers: the distinct elements in ascending
    order. *)
Definition sorted_set (ys : list Z) : list Z := merge_sort Z.le (remove_dups ys).

(** [_fill_years]: [ys] is the list [distinct_years()] returns, [cy] the
    year of today. *)
Definition _fill_years (ys : list Z) (cy : Z) (cmb_year : QComboBox) : QComboBox :=
  let ys := if bool_decide (cy ∈ ys) then ys else ys ++ [cy] in
  foldl (λ box y, addItem (pretty y) box) cmb_year (sorted_set ys).

(** [_fill_months]: [month_name] is [calendar.month_name], which depends
    on the locale. *)
Definition _fill_months (month_name : Z → string) (cmb_month : QComboBox) : QComboBox :=
  foldl (λ box m, addItem (month_name m) box) cmb_month (seqZ 1 12).

(** [_select_now] on the two boxes, for today's year and month. *)
Definition _select_now (year month : Z) (boxes : QComboBox * QComboBox)
    : QComboBox * QComboBox :=
  (setCurrentText (pretty year) boxes.1, setCurrentIndex (month - 1) boxes.2).

(** ** The total as it is shown *)













(** ** Outcomes when nothing is caught *)

(** Calls made one after the other with no handler between them: the
    first exception ends the sequence and is its outcome. *)
Definition and_then {A B} (r : result A) (k : A → result B) : result B :=
  match r with
  | Ok a => k a
  | Raise e => Raise e
  end.

Definition outcome {A} (r : result A) : result unit := and_then r (λ _, Ok tt).

Definition all_ok (rs : list (result unit)) : result unit :=
  foldr (λ r rest, and_then r (λ _, rest)) (Ok tt) rs.

Section Outcomes.
Context {backend : SoundBackend} {host : Host} {modules : AppModules}.

(** The calls of the constructor of one clip, in order. *)
Definition new_effect_outcome (src : string) : result QSoundEffect :=
  and_then q_new (λ s0,
  and_then (q_setSource src s0) (λ s1,
  and_then (q_setLoopCount 999999 s1) (λ s2,
  q_setVolume vol_085 s2))).

(** The calls of [__init__], in order. *)
Definition init_outcome (env : SoundEnv) (assets_dir : string) (en : bool) : result unit :=
  if en && HAVE_SOUND env then
    all_ok ((λ lvl, if wav_exists env lvl
                    then outcome (new_effect (wav_path assets_dir lvl))
                    else Ok tt) <$> [2; 3; 4; 5])
  else Ok tt.

(** The toolkit calls of [play_for_level], in order; the [stop()] of each
    clip, being guarded, is not among them. *)
Definition play_outcome (level : Z) (self : EMFSound) : result unit :=
  let l := clamp_level level in
  if negb (enabled self) || bool_decide (effects self = ∅) then Ok tt
  else if bool_decide (l = 1) then Ok tt
  else
    match effects self !! l with
    | None => Ok tt
    | Some eff =>
        if bool_decide (l = cur_level self) then
          and_then (q_isPlaying eff) (λ is_playing,
            if is_playing then Ok tt else outcome (q_play eff))
        else
          and_then (q_setVolume vol_085 (stop_quietly eff)) (λ eff1,
            outcome (q_play eff1))
    end.

(** The reads and conversions of the loop body of [reload], in order. *)
Definition row_outcome (r : gmap string pyval) : result unit :=
  and_then (getitem r "date") (λ date,
  and_then (QTableWidgetItem date) (λ _,
  and_then (getitem r "category") (λ category,
  and_then (QTableWidgetItem category) (λ _,
  and_then (getitem r "description") (λ description,
  and_then (QTableWidgetItem (py_or description (VStr ""))) (λ _,
  and_then (getitem r "amount") (λ amount,
  outcome (fmt_2f amount)))))))).

(** The calls of [reload], in order: the store, the rows, the store
    again, and the sound wrapper. *)
Definition reload_outcome (w : MainWindow) : result unit :=
  match list_month (cmb_year w) (cmb_month w + 1) (disk w) with
  | (Raise e, _) => Raise e
  | (Ok rows, d1) =>
      and_then (all_ok (row_outcome <$> rows)) (λ _,
        match get_settings d1 with
        | (Raise e, _) => Raise e
        | (Ok settings, d2) =>
            and_then (getitem settings "currency") (λ _,
              match month_total (cmb_year w) (cmb_month w + 1) d2 with
              | (Raise e, _) => Raise e
              | (Ok total, _) =>
                  (play_for_level (emf_level_from_total total) (sfx w)).1
              end)
        end)
  end.
End Outcomes.
(** * Properties *)

(** ** The order on Python numbers *)

Lemma xle_trans a b c : xle a b = true → xle b c = true → xle a c = true.
Proof.
  destruct a as [| |p|], b as [| |q|], c as [| |r|]; simpl; try done.
  rewrite !Qle_bool_iff. apply Qle_trans.
Qed.

Lemma py_ge_mono t1 t2 c :
  py_le t1 t2 = true → py_ge t1 c = true → py_ge t2 c = true.
Proof. unfold py_ge, py_le. intros H12 Hc. exact (xle_trans _ _ _ Hc H12). Qed.

Lemma xle_proper_l a a' b :
  xle a a' = true → xle a' a = true → xle a b = xle a' b.
Proof.
  intros H1 H2. destruct (xle a' b) eqn:E.
  - exact (xle_trans _ _ _ H1 E).
  - destruct (xle a b) eqn:E'; [|done].
    rewrite (xle_trans _ _ _ H2 E') in E. done.
Qed.

Lemma xle_proper_r a b b' :
  xle b b' = true → xle b' b = true → xle a b = xle a b'.
Proof.
  intros H1 H2. destruct (xle a b') eqn:E.
  - exact (xle_trans _ _ _ E H2).
  - destruct (xle a b) eqn:E'; [|done].
    rewrite (xle_trans _ _ _ E' H1) in E. done.
Qed.

Lemma py_ge_eq t1 t2 c : py_eq t1 t2 = true → py_ge t1 c = py_ge t2 c.
Proof.
  unfold py_eq, py_ge, py_le. intros [H1 H2]%andb_true_iff.
  by apply xle_proper_r.
Qed.

Lemma emf_level_range total : 1 ≤ emf_level_from_total total ≤ 5.
Proof. unfold emf_level_from_total. repeat case_match; lia. Qed.

Example emf_level_499_75 : emf_level_from_total (PFloat (FFin 1999 (-2))) = 1.
Proof. reflexivity. Qed.

Example emf_level_500 : emf_level_from_total (PFloat (FFin 125 2)) = 2.
Proof. reflexivity. Qed.

Example emf_level_nan : emf_level_from_total (PFloat FNan) = 1.
Proof. reflexivity. Qed.

(** C1. For every monthly total [emf_level_from_total] returns an integer
    among 1, 2, 3, 4, 5, and each of the five tiers is the tier of some
    total. *)
Theorem emf_level_five_tiers :
  (∀ total, emf_level_from_total total ∈ [1; 2; 3; 4; 5]) ∧
  Forall (λ tier, ∃ total, emf_level_from_total total = tier) [1; 2; 3; 4; 5].
Proof.
  split.
  - intros total. unfold emf_level_from_total.
    repeat case_match; set_solver.
  - repeat constructor.
    + by exists (PFloat (FFin 0 0)).
    + by exists (PFloat (FFin 125 2)).
    + by exists (PFloat (FFin 125 3)).
    + by exists (PFloat (FFin 375 2)).
    + by exists (PFloat (FFin 125 4)).
Qed.

(** C2. [emf_level_from_total] is a pure lookup: two calls on equal totals
    (the same value, or two numbers Python's [==] holds of) return the same
    tier whatever the program states they run in, each call returns, and
    each leaves its state as it was. *)
Theorem emf_level_pure {S1 S2 : Type} (s1 : S1) (s2 : S2) (t1 t2 : pynum) :
  t1 = t2 ∨ py_eq t1 t2 = true →
  emf_level_call t1 s1 = (Ok (emf_level_from_total t1), s1) ∧
  emf_level_call t2 s2 = (Ok (emf_level_from_total t2), s2) ∧
  emf_level_from_total t1 = emf_level_from_total t2.
Proof.
  intros Heq. split; [done|]. split; [done|].
  destruct Heq as [->|Heq]; [done|].
  unfold emf_level_from_total. by rewrite !(py_ge_eq t1 t2).
Qed.

Lemma emf_level_pure_witness :
  emf_level_call (S := bool) (PInt 500) true = (Ok 2, true) ∧
  emf_level_call (S := nat) (PFloat (FFin 125 2)) 7%nat = (Ok 2, 7%nat) ∧
  emf_level_from_total (PInt 500) = emf_level_from_total (PFloat (FFin 125 2)).
Proof.
  apply (emf_level_pure true 7%nat (PInt 500) (PFloat (FFin 125 2))).
  right. reflexivity.
Defined.

(** C10. [emf_level_from_total] is monotone: when [t1 <= t2] holds of two
    totals, the tier of [t1] is at most the tier of [t2]. *)
Theorem emf_level_monotone (t1 t2 : pynum) :
  py_le t1 t2 = true →
  emf_level_from_total t1 ≤ emf_level_from_total t2.
Proof.
  intros Hle. unfold emf_level_from_total.
  pose proof (py_ge_mono t1 t2 (PInt 2000) Hle).
  pose proof (py_ge_mono t1 t2 (PInt 1500) Hle).
  pose proof (py_ge_mono t1 t2 (PInt 1000) Hle).
  pose proof (py_ge_mono t1 t2 (PInt 500) Hle).
  destruct (py_ge t1 (PInt 2000)), (py_ge t1 (PInt 1500)),
    (py_ge t1 (PInt 1000)), (py_ge t1 (PInt 500));
    repeat match goal with H : true = true → _ |- _ => rewrite (H eq_refl) end;
    repeat case_match; lia.
Qed.

Lemma emf_level_monotone_witness :
  emf_level_from_total (PFloat (FFin 1999 (-2))) ≤ emf_level_from_total (PInt 1500).
Proof. apply emf_level_monotone. reflexivity. Defined.

(** ** [EMFSound]: how the methods run *)

Ltac run_M :=
  unfold mbind, M_bind, mret, M_ret, get, modify, lift, raise, zoom, try_except in *.

Section SoundFacts.
Context {backend : SoundBackend}.

Lemma stop_run self : stop self = (Ok tt, stopped self).
Proof. reflexivity. Qed.

Lemma play_for_level_run level self :
  play_for_level level self =
    let l := clamp_level level in
    if negb (enabled self) || bool_decide (effects self = ∅) then (Ok tt, stopped self)
    else if bool_decide (l = 1) then (Ok tt, stopped self)
    else if bool_decide (l = cur_level self) then
      match effects self !! l with
      | Some eff =>
          match q_isPlaying eff with
          | Ok true => (Ok tt, self)
          | Ok false => on_effect l q_play self
          | Raise e => (Raise e, self)
          end
      | None => (Ok tt, self)
      end
    else
      let self1 := set_cur_level l (stopped self) in
      match effects self1 !! l with
      | Some _ =>
          match on_effect l (q_setVolume vol_085) self1 with
          | (Ok _, self2) => on_effect l q_play self2
          | (Raise e, self2) => (Raise e, self2)
          end
      | None => (Ok tt, self1)
      end.
Proof.
  unfold play_for_level. run_M. cbv zeta.
  destruct (negb _ || _); [done|].
  destruct (bool_decide (_ = 1)); [done|].
  destruct (bool_decide (_ = cur_level _)).
  - repeat case_match; simplify_eq; done.
  - rewrite stop_run. cbv iota beta.
    repeat case_match; simplify_eq; done.
Qed.
End SoundFacts.

(** ** [EMFSound] on the documented toolkit *)

Lemma stop_quietly_qt s :
  stop_quietly (backend := qt) s =
    {| source := source s; loopCount := loopCount s; volume := volume s; playing := false |}.
Proof. reflexivity. Qed.

Lemma stopped_all_stopped self : all_stopped (stopped (backend := qt) self).
Proof.
  intros k eff. unfold stopped; simpl. rewrite lookup_fmap.
  destruct (effects self !! k); simpl; [|done]. by intros [= <-].
Qed.

Lemma stopped_lookup `{SoundBackend} self k :
  effects (stopped self) !! k = stop_quietly <$> effects self !! k.
Proof. unfold stopped; simpl. by rewrite lookup_fmap. Qed.

Lemma switch_run_qt self l eff :
  effects self !! l = Some eff →
  let self1 := set_cur_level l (stopped (backend := qt) self) in
  match on_effect l (@q_setVolume qt vol_085) self1 with
  | (Ok _, self2) => on_effect l (@q_play qt) self2
  | (Raise e, self2) => (Raise e, self2)
  end = (Ok tt, set_effects (<[l := started eff]> (effects self1)) self1).
Proof.
  intros Heff. cbv zeta. unfold on_effect.
  assert (effects (set_cur_level l (stopped (backend := qt) self)) !! l
          = Some (stop_quietly (backend := qt) eff)) as ->.
  { simpl. by rewrite lookup_fmap, Heff. }
  simpl. rewrite lookup_insert_eq. simpl.
  by rewrite insert_insert_eq.
Qed.

Lemma switch_lookup `{SoundBackend} self l :
  effects (set_cur_level l (stopped self)) !! l = stop_quietly <$> effects self !! l.
Proof. apply stopped_lookup. Qed.

Lemma play_for_level_returns_qt self level :
  (play_for_level (backend := qt) level self).1 = Ok tt.
Proof.
  rewrite play_for_level_run. cbv zeta.
  destruct (negb _ || _); [done|].
  destruct (bool_decide (_ = 1)); [done|].
  destruct (bool_decide (_ = cur_level _)).
  - destruct (effects self !! clamp_level level) as [eff|] eqn:Heff; [|done].
    simpl. destruct (playing eff); [done|].
    unfold on_effect. by rewrite Heff.
  - rewrite switch_lookup.
    destruct (effects self !! clamp_level level) as [eff|] eqn:Heff; [|done].
    simpl fmap. cbv iota.
    pose proof (switch_run_qt self _ eff Heff) as Hrun. cbv zeta in Hrun.
    by rewrite Hrun.
Qed.

(** C3, as amended.  On the documented toolkit every call returns; when the
    level after considering enablement is 1 all effects are stopped; when
    the level is in 2..5, sound is enabled, at least one effect is loaded
    and the level differs from the current one, [cur_level] becomes the new
    level, every other clip is stopped, and the clip of the new level, when
    one is loaded, is restarted at volume 0.85 with its loop count kept. *)
Theorem play_for_level_sync (self : EMFSound) (level : Z) :
  let self' := (play_for_level (backend := qt) level self).2 in
  (play_for_level (backend := qt) level self).1 = Ok tt ∧
  (effective_level self level = 1 → all_stopped self') ∧
  (2 ≤ level ≤ 5 → enabled self = true → effects self ≠ ∅ →
   level ≠ cur_level self →
     cur_level self' = level ∧
     (∀ k eff, effects self' !! k = Some eff → k ≠ level → playing eff = false) ∧
     (∀ eff, effects self !! level = Some eff →
        effects self' !! level = Some (started eff))).
Proof.
  cbv zeta. split; [apply play_for_level_returns_qt|].
  rewrite play_for_level_run. cbv zeta.
  split.
  - unfold effective_level. intros Hone.
    destruct (enabled self) eqn:En; simpl; [|apply stopped_all_stopped].
    destruct (bool_decide (effects self = ∅)); [apply stopped_all_stopped|].
    rewrite Hone. apply stopped_all_stopped.
  - intros Hrange Hen Hne Hcur.
    assert (clamp_level level = level) as -> by (unfold clamp_level; lia).
    rewrite Hen. simpl negb. simpl orb.
    rewrite !bool_decide_false by (done || lia).
    rewrite switch_lookup.
    destruct (effects self !! level) as [eff|] eqn:Heff; simpl fmap; cbv iota.
    + pose proof (switch_run_qt self _ eff Heff) as Hrun. cbv zeta in Hrun.
      rewrite Hrun. simpl. split; [done|]. split.
      * intros k eff' Hk Hkl. rewrite lookup_insert_ne in Hk by done.
        by apply (stopped_all_stopped self k).
      * intros ? [= <-]. by rewrite lookup_insert_eq.
    + split; [done|]. split; [|done].
      intros k eff' Hk _. by apply (stopped_all_stopped self k).
Qed.

Lemma play_for_level_sync_witness :
  all_stopped (play_for_level (backend := qt) 0 sound_at_2).2 ∧
  cur_level (play_for_level (backend := qt) 3 sound_at_2).2 = 3 ∧
  effects (play_for_level (backend := qt) 3 sound_at_2).2 !! 3
    = Some (started (clip 3 false)).
Proof.
  split.
  - apply (play_for_level_sync sound_at_2 0). reflexivity.
  - destruct (play_for_level_sync sound_at_2 3) as (_ & _ & Hswitch).
    destruct Hswitch as (Hcur & _ & Hstart).
    + lia.
    + reflexivity.
    + intros Hempty. apply (f_equal (lookup 2)) in Hempty. vm_compute in Hempty.
      discriminate.
    + simpl. lia.
    + split; [exact Hcur|]. apply Hstart. reflexivity.
Defined.

(** C3, to the letter, fails: with sound enabled but no clip loaded, a call
    for level 3 stops and returns at the guard, and [cur_level] stays 1. *)
Lemma play_for_level_as_stated_fails :
  ¬ play_for_level_as_stated sound_without_clips 3.
Proof.
  intros [_ Hswitch].
  destruct Hswitch as (_ & _ & Hcur); [lia | reflexivity | simpl; lia |].
  vm_compute in Hcur. discriminate.
Qed.

(** ** Totality and clamping *)

Lemma clamp_level_range level : 1 ≤ clamp_level level ≤ 5.
Proof. unfold clamp_level. lia. Qed.

Lemma clamp_level_idem level : clamp_level (clamp_level level) = clamp_level level.
Proof. unfold clamp_level. lia. Qed.

Lemma play_for_level_clamp `{SoundBackend} level self :
  play_for_level level self = play_for_level (clamp_level level) self.
Proof. by rewrite !play_for_level_run, clamp_level_idem. Qed.

(** C8. [play_for_level] is total over the integers: on the documented
    toolkit every call returns; the argument is clamped to [1, 5], to the
    nearest valid tier; a call behaves exactly as the call with the clamped
    level; and when no effect is stored for the level the call returns
    whatever the toolkit does. *)
Theorem play_for_level_total (self : EMFSound) (level : Z) :
  (play_for_level (backend := qt) level self).1 = Ok tt ∧
  clamp_level level = Z.max 1 (Z.min 5 level) ∧
  1 ≤ clamp_level level ≤ 5 ∧
  clamp_level level
    = (if decide (level < 1) then 1 else if decide (5 < level) then 5 else level) ∧
  (∀ backend : SoundBackend,
     play_for_level level self = play_for_level (clamp_level level) self) ∧
  (∀ backend : SoundBackend,
     (play_for_level level
        (set_effects (delete (clamp_level level) (effects self)) self)).1 = Ok tt).
Proof.
  split; [apply play_for_level_returns_qt|].
  split; [done|].
  split; [apply clamp_level_range|].
  split; [unfold clamp_level; repeat case_decide; lia|].
  split; [intros; apply play_for_level_clamp|].
  intros backend. rewrite play_for_level_run. cbv zeta.
  destruct (negb _ || _); [done|].
  destruct (bool_decide (_ = 1)); [done|].
  destruct (bool_decide (_ = cur_level _)).
  - simpl. by rewrite lookup_delete_eq.
  - rewrite switch_lookup. simpl. by rewrite lookup_delete_eq.
Qed.

Example play_for_level_below : 
  play_for_level (backend := qt) (-7) sound_at_2
  = play_for_level (backend := qt) 1 sound_at_2.
Proof. apply play_for_level_clamp. Qed.

Example play_for_level_above_missing :
  play_for_level (backend := qt) 99 sound_at_2
  = (Ok tt, {| enabled := true; cur_level := 5;
               effects := <[2 := clip 2 false]> (<[3 := clip 3 false]> ∅) |}).
Proof. vm_compute. reflexivity. Qed.

(** ** The invariant on [cur_level] *)

Lemma for_each_preserves {S A} (P : S → Prop) (body : A → M S unit) xs :
  (∀ x s, P s → P (body x s).2) → ∀ s, P s → P (for_each xs body s).2.
Proof.
  intros Hbody. induction xs as [|x xs IH]; intros s Hs; [done|].
  simpl. unfold mbind, M_bind. specialize (Hbody x s Hs).
  destruct (body x s) as [[[]|e] s']; simpl in *; auto.
Qed.

Section Invariant.
Context {backend : SoundBackend}.

Lemma on_effect_fields k f self :
  enabled (on_effect k f self).2 = enabled self ∧
  cur_level (on_effect k f self).2 = cur_level self.
Proof. unfold on_effect. repeat case_match; done. Qed.

Lemma load_effects_fields env assets_dir self :
  enabled (load_effects env assets_dir self).2 = enabled self ∧
  cur_level (load_effects env assets_dir self).2 = cur_level self.
Proof.
  unfold load_effects. run_M. destruct (enabled self) eqn:En; [|done].
  apply (for_each_preserves
           (λ s, enabled s = true ∧ cur_level s = cur_level self)); [|done].
  intros lvl s [Hen Hcur]. destruct (wav_exists env lvl); [|done].
  destruct (new_effect _); done.
Qed.

Lemma init_level_inv env assets_dir en self :
  EMFSound_init env assets_dir en = Ok self → level_inv_in env self.
Proof.
  unfold EMFSound_init.
  pose proof (load_effects_fields env assets_dir
    {| enabled := en && HAVE_SOUND env; cur_level := 1; effects := ∅ |}) as [Hen Hcur].
  destruct (load_effects _ _ _) as [[[]|e] s]; [|done]. intros [= <-].
  simpl in *. repeat split; try lia.
  rewrite Hen. by intros [_ ?]%andb_true_iff.
Qed.

Lemma stop_level_inv env self :
  level_inv_in env self → level_inv_in env (stop self).2.
Proof. intros [_ Hs]. rewrite stop_run. repeat split; simpl; (lia || done). Qed.

Lemma set_muted_level_inv env muted self :
  level_inv_in env self → level_inv_in env (set_muted env muted self).2.
Proof.
  intros [[Hrange Hoff] Hs]. unfold set_muted. run_M.
  destruct muted; simpl.
  - repeat split; simpl; (lia || done).
  - unfold level_inv_in, level_inv; simpl. split; [split; [done|]|done].
    intros Hhave. apply Hoff. destruct (enabled self); [|done].
    rewrite Hs in Hhave; done.
Qed.

Lemma play_for_level_level_inv env level self :
  level_inv_in env self → level_inv_in env (play_for_level level self).2.
Proof.
  intros Hinv. pose proof (stop_level_inv env self Hinv) as Hstop.
  rewrite stop_run in Hstop. simpl in Hstop.
  rewrite play_for_level_run. cbv zeta.
  destruct (negb (enabled self) || _) eqn:Hguard; [done|].
  apply orb_false_iff in Hguard as [Hen%negb_false_iff _].
  case_bool_decide as Hone; [done|].
  pose proof (clamp_level_range level) as Hrange.
  assert (∀ s, enabled s = enabled self → cur_level s = clamp_level level →
               level_inv_in env s) as Hat.
  { intros s Hes Hcs. destruct Hinv as [_ Hs]. repeat split; try lia.
    - rewrite Hes, Hen. done.
    - rewrite Hes. done. }
  case_bool_decide as Hsame.
  - destruct (effects self !! clamp_level level) as [eff|]; [|done].
    destruct (q_isPlaying eff) as [[]|]; try done.
    destruct (on_effect_fields (clamp_level level) q_play self) as [He Hc].
    apply Hat; congruence.
  - destruct (effects _ !! clamp_level level); [|by apply Hat].
    destruct (on_effect_fields (clamp_level level) (q_setVolume vol_085)
                (set_cur_level (clamp_level level) (stopped self))) as [He Hc].
    destruct (on_effect _ (q_setVolume vol_085) _) as [[[]|e] s2]; simpl in *.
    + destruct (on_effect_fields (clamp_level level) q_play s2) as [He' Hc'].
      apply Hat; congruence.
    + by apply Hat.
Qed.

Lemma run_op_level_inv env op self :
  level_inv_in env self → level_inv_in env (run_op env op self).2.
Proof.
  intros Hinv. destruct op; simpl.
  - by apply set_muted_level_inv.
  - by apply stop_level_inv.
  - by apply play_for_level_level_inv.
Qed.

Lemma run_ops_level_inv env ops self :
  level_inv_in env self → level_inv_in env (run_ops env ops self).
Proof.
  unfold run_ops. revert self.
  induction ops as [|op ops IH]; intros self Hinv; [done|].
  simpl. apply IH. by apply run_op_level_inv.
Qed.
End Invariant.

(** C9. Whatever the toolkit does, an [EMFSound] that its constructor
    returned has [cur_level] in [1, 5], and equal to 1 whenever [enabled] is
    false, and so has it after every sequence of calls of [set_muted],
    [stop] and [play_for_level]. *)
Theorem cur_level_invariant {backend : SoundBackend} (env : SoundEnv)
    (assets_dir : string) (en : bool) (self : EMFSound) (ops : list sound_op) :
  EMFSound_init env assets_dir en = Ok self →
  level_inv self ∧ level_inv (run_ops env ops self).
Proof.
  intros Hinit%init_level_inv. split; [apply Hinit|].
  by apply run_ops_level_inv.
Qed.

Lemma cur_level_invariant_witness :
  ∃ self, EMFSound_init (backend := qt) full_env "assets" true = Ok self ∧
    level_inv (run_ops (backend := qt) full_env
                 [PlayForLevel 7; SetMuted true; PlayForLevel 3; SetMuted false; Stop] self).
Proof.
  eexists. split; [vm_compute; reflexivity|].
  apply (cur_level_invariant (backend := qt) full_env "assets" true).
  vm_compute. reflexivity.
Defined.

(** ** The table of [reload] *)

Lemma alter_last {A} (f : A → A) (l : list A) (x : A) :
  alter f (length l) (l ++ [x]) = l ++ [f x].
Proof. induction l as [|y l IH]; simpl; [done|]. f_equal. exact IH. Qed.

Section WindowFacts.
Context {backend : SoundBackend} {host : Host} {modules : AppModules}.

Lemma render_row_run r tr (w : MainWindow) :
  rendered r = Some tr →
  render_row r w = (Ok tt, set_table (table w ++ [tr]) w).
Proof.
  unfold rendered. intros Hr.
  destruct (r !! "date") as [[|date|]|] eqn:Hd; try done.
  destruct (r !! "category") as [[|category|]|] eqn:Hc; try done.
  destruct (r !! "description") as [description|] eqn:Hds; try done.
  destruct (r !! "amount") as [[| |amount]|] eqn:Ha; try done.
  destruct (py_or description (VStr "")) as [|desc|] eqn:Hor; try done.
  injection Hr as <-.
  unfold render_row, rowCount, insertRow, setItem, setRowHeight, getitem. run_M.
  rewrite Hd, Hc, Hds, Ha, Hor. simpl.
  rewrite bool_decide_true by done. simpl.
  rewrite firstn_all, drop_all. rewrite !alter_last.
  reflexivity.
Qed.

Lemma for_each_render_run rows trows (w : MainWindow) :
  mapM rendered rows = Some trows →
  for_each rows render_row w = (Ok tt, set_table (table w ++ trows) w).
Proof.
  rewrite mapM_Some. intros Hall. revert w.
  induction Hall as [|r tr rows trows Hr _ IH]; intros w; simpl.
  - rewrite app_nil_r. by destruct w.
  - unfold mbind, M_bind. rewrite (render_row_run r tr w Hr), IH. simpl.
    by rewrite <- app_assoc.
Qed.

Lemma colors_lookup lvl :
  1 ≤ lvl ≤ 5 → ∃ color, colors !! lvl = Some color.
Proof.
  intros Hr.
  assert (lvl = 1 ∨ lvl = 2 ∨ lvl = 3 ∨ lvl = 4 ∨ lvl = 5) as Hl by lia.
  destruct Hl as [->|[->|[->|[->| ->]]]]; eexists; vm_compute; reflexivity.
Qed.

(** [reload], when the store answers and the rows are well formed. *)
Lemma reload_run (w : MainWindow) rows trows d1 settings d2 cur total d3 color :
  list_month (cmb_year w) (cmb_month w + 1) (disk w) = (Ok rows, d1) →
  mapM rendered rows = Some trows →
  get_settings d1 = (Ok settings, d2) →
  settings !! "currency" = Some cur →
  month_total (cmb_year w) (cmb_month w + 1) d2 = (Ok total, d3) →
  colors !! emf_level_from_total total = Some color →
  reload w =
    ((play_for_level (emf_level_from_total total) (sfx w)).1,
     {| disk := d3;
        sfx := (play_for_level (emf_level_from_total total) (sfx w)).2;
        cmb_year := cmb_year w; cmb_month := cmb_month w;
        lbl_total := "Monthly Total: " +:+ fmt_plain cur +:+ format_2f total;
        emf_dot := style_of color;
        lbl_emf := "EMF " +:+ pretty (emf_level_from_total total);
        table := trows; shown := shown w |}).
Proof.
  intros Hlist Hrows Hset Hcur Htotal Hcolor.
  unfold reload, _current_y_m, on_disk, on_sfx, setRowCount, _set_emf_ui, getitem.
  unfold mbind, M_bind, zoom, modify, lift. simpl. rewrite Hlist. simpl.
  rewrite (for_each_render_run rows trows _ Hrows). simpl.
  rewrite Hset. simpl. rewrite Hcur. simpl.
  rewrite Htotal. simpl.
  rewrite Hcolor. unfold mbind, M_bind. simpl.
  by destruct (play_for_level _ _) as [res self'].
Qed.
End WindowFacts.

(** ** What plays after [play_for_level], on the documented toolkit *)

Lemma all_stopped_only_playing l self : all_stopped self → only_playing l self.
Proof. intros Hall k eff Hk Hp. rewrite (Hall k eff Hk) in Hp. done. Qed.

Lemma play_for_level_only_playing level self :
  sound_inv self →
  only_playing (clamp_level level) (play_for_level (backend := qt) level self).2 ∧
  sound_inv (play_for_level (backend := qt) level self).2.
Proof.
  intros Hinv. unfold sound_inv in *.
  rewrite play_for_level_run. cbv zeta.
  destruct (negb _ || _).
  { split; apply all_stopped_only_playing, stopped_all_stopped. }
  destruct (bool_decide (_ = 1)).
  { split; apply all_stopped_only_playing, stopped_all_stopped. }
  case_bool_decide as Hsame.
  - assert (only_playing (clamp_level level)
              (match effects self !! clamp_level level with
               | Some eff =>
                   match @q_isPlaying qt eff with
                   | Ok true => (Ok tt, self)
                   | Ok false => on_effect (clamp_level level) (@q_play qt) self
                   | Raise e => (Raise e, self)
                   end
               | None => (Ok tt, self)
               end).2 ∧
            cur_level (match effects self !! clamp_level level with
               | Some eff =>
                   match @q_isPlaying qt eff with
                   | Ok true => (Ok tt, self)
                   | Ok false => on_effect (clamp_level level) (@q_play qt) self
                   | Raise e => (Raise e, self)
                   end
               | None => (Ok tt, self)
               end).2 = clamp_level level) as [Honly Hcur].
    { destruct (effects self !! clamp_level level) as [eff|] eqn:Heff;
        [|by rewrite Hsame].
      simpl. destruct (playing eff); [by rewrite Hsame|].
      unfold on_effect. rewrite Heff. cbn [q_play qt]. cbv iota.
      cbn [snd set_effects effects cur_level]. split; [|done].
      intros k eff' Hk Hp.
      destruct (decide (k = clamp_level level)) as [->|Hne]; [done|].
      cbn [set_effects effects] in Hk.
      rewrite lookup_insert_ne in Hk by done.
      rewrite Hsame. by apply (Hinv k eff'). }
    split; [done|]. by rewrite Hcur.
  - rewrite switch_lookup.
    destruct (effects self !! clamp_level level) as [eff|] eqn:Heff;
      simpl fmap; cbv iota.
    + pose proof (switch_run_qt self _ eff Heff) as Hrun. cbv zeta in Hrun.
      rewrite Hrun. simpl.
      assert (∀ k eff', <[clamp_level level := started eff]>
                (stop_quietly (backend := qt) <$> effects self) !! k = Some eff' →
              playing eff' = true → k = clamp_level level) as Honly.
      { intros k eff' Hk Hp.
        destruct (decide (k = clamp_level level)) as [->|Hne]; [done|].
        rewrite lookup_insert_ne in Hk by done.
        rewrite (stopped_all_stopped self k eff') in Hp; [done|].
        by rewrite stopped_lookup, <- lookup_fmap. }
      split; exact Honly.
    + simpl. split; intros k eff' Hk Hp;
        rewrite (stopped_all_stopped self k eff') in Hp; done.
Qed.


Lemma load_effects_all_stopped env assets_dir self :
  all_stopped self → all_stopped (load_effects (backend := qt) env assets_dir self).2.
Proof.
  intros Hall. unfold load_effects. run_M. destruct (enabled self); [|done].
  apply (for_each_preserves all_stopped); [|done].
  intros lvl s Hs. destruct (wav_exists env lvl); [|done].
  cbn [new_effect q_new q_setSource q_setLoopCount q_setVolume qt snd set_effects].
  intros k eff. cbn [effects set_effects]. rewrite lookup_insert. case_decide.
  - by intros [= <-].
  - apply Hs.
Qed.

Lemma init_sound_inv env assets_dir en self :
  EMFSound_init (backend := qt) env assets_dir en = Ok self → sound_inv self.
Proof.
  unfold EMFSound_init.
  pose proof (load_effects_all_stopped env assets_dir
    {| enabled := en && HAVE_SOUND env; cur_level := 1; effects := ∅ |}) as Hall.
  destruct (load_effects _ _ _) as [[[]|e] s]; [|done]. intros [= <-].
  apply all_stopped_only_playing, Hall. intros k eff Hk.
  cbn [effects] in Hk. by rewrite lookup_empty in Hk.
Qed.

Lemma stop_sound_inv self : sound_inv (stop (backend := qt) self).2.
Proof. rewrite stop_run. apply all_stopped_only_playing, stopped_all_stopped. Qed.

Lemma set_muted_sound_inv env muted self :
  sound_inv self → sound_inv (set_muted (backend := qt) env muted self).2.
Proof.
  intros Hinv. unfold set_muted. run_M. destruct muted; simpl; [|done].
  apply all_stopped_only_playing. intros k eff. simpl. rewrite lookup_fmap.
  destruct (effects self !! k); simpl; [|done]. by intros [= <-].
Qed.

Lemma sound_at_2_inv : sound_inv sound_at_2.
Proof.
  intros k eff Hk Hp. cbn [sound_at_2 effects cur_level] in *.
  destruct (decide (k = 2)) as [|Hk2]; [done|].
  rewrite lookup_insert_ne in Hk by done.
  destruct (decide (k = 3)) as [->|Hk3].
  - rewrite lookup_insert_eq in Hk. by injection Hk as <-.
  - rewrite lookup_insert_ne in Hk by done. by rewrite lookup_empty in Hk.
Qed.

(** ** [reload] and the EMF indicator *)



Lemma colors_lookup_cases l c :
  colors !! l = Some c →
  (l = 1 ∧ c = "#6eb6ff") ∨ (l = 2 ∧ c = "#36b24a") ∨ (l = 3 ∧ c = "#ffd84a") ∨
  (l = 4 ∧ c = "#ff8f2b") ∨ (l = 5 ∧ c = "#ff3737").
Proof.
  unfold colors. intros Hl.
  repeat (rewrite lookup_insert in Hl; case_decide;
          [injection Hl as <-; subst; tauto|]).
  by rewrite lookup_empty in Hl.
Qed.

Lemma colors_lookup_none l : ¬ 1 ≤ l ≤ 5 → colors !! l = None.
Proof.
  intros Hout. destruct (colors !! l) as [c|] eqn:Hl; [|done].
  apply colors_lookup_cases in Hl. lia.
Qed.






(** ** Expense records through [on_add] and [reload] *)

Section Records.
Context {backend : SoundBackend} {host : Host} {modules : AppModules}.

Lemma on_add_run v date category description amount (w : MainWindow) :
  v !! "date" = Some date → v !! "category" = Some category →
  v !! "description" = Some description → v !! "amount" = Some amount →
  on_add true v w
  = (on_disk (add_expense date category description amount) ≫= λ _, reload) w.
Proof.
  intros Hd Hc Hds Ha. unfold on_add, getitem, lift, mbind, M_bind.
  by rewrite Hd, Hc, Hds, Ha.
Qed.




End Records.



(** ** Where exceptions are caught, and where they are not *)

Section Handlers.
Context {backend : SoundBackend} {host : Host} {modules : AppModules}.

Lemma on_export_run path settings d1 cur (w : MainWindow) :
  path ≠ "" →
  get_settings (disk w) = (Ok settings, d1) →
  settings !! "currency" = Some cur →
  on_export path w =
    match export_month_pdf path (cmb_year w) (cmb_month w + 1) cur d1 with
    | (Ok _, d2) =>
        (Ok tt, set_shown (shown w ++ [Information "Export" "PDF saved."]) (set_disk d2 w))
    | (Raise e, d2) =>
        (Ok tt, set_shown (shown w ++ [Critical "Export failed" (exn_msg e)]) (set_disk d2 w))
    end.
Proof.
  intros Hpath Hset Hcur.
  unfold on_export, _current_y_m, on_disk, getitem, information, critical.
  unfold mbind, M_bind, zoom, modify, lift, try_except. simpl.
  rewrite Hset. simpl. rewrite Hcur. simpl.
  rewrite bool_decide_false by done.
  by destruct (export_month_pdf _ _ _ _ _) as [[[]|e] d2].
Qed.

Lemma on_export_cancelled settings d1 cur (w : MainWindow) :
  get_settings (disk w) = (Ok settings, d1) →
  settings !! "currency" = Some cur →
  on_export "" w = (Ok tt, set_disk d1 w).
Proof.
  intros Hset Hcur.
  unfold on_export, _current_y_m, on_disk, getitem.
  unfold mbind, M_bind, zoom, lift. simpl.
  rewrite Hset. simpl. by rewrite Hcur.
Qed.

Lemma on_export_settings_raise path e d1 (w : MainWindow) :
  get_settings (disk w) = (Raise e, d1) →
  on_export path w = (Raise e, set_disk d1 w).
Proof.
  intros Hset. unfold on_export, _current_y_m, on_disk.
  unfold mbind, M_bind, zoom. simpl. by rewrite Hset.
Qed.

Lemma reload_list_raise e d1 (w : MainWindow) :
  list_month (cmb_year w) (cmb_month w + 1) (disk w) = (Raise e, d1) →
  reload w = (Raise e, set_disk d1 w).
Proof.
  intros Hlist. unfold reload, _current_y_m, on_disk.
  unfold mbind, M_bind, zoom. simpl. by rewrite Hlist.
Qed.

Lemma on_add_raise v date category description amount e d1 (w : MainWindow) :
  v !! "date" = Some date → v !! "category" = Some category →
  v !! "description" = Some description → v !! "amount" = Some amount →
  add_expense date category description amount (disk w) = (Raise e, d1) →
  on_add true v w = (Raise e, set_disk d1 w).
Proof.
  intros Hd Hc Hds Ha Hadd. rewrite (on_add_run v date category description amount) by done.
  unfold on_disk, mbind, M_bind, zoom. by rewrite Hadd.
Qed.

Lemma on_add_missing v k (w : MainWindow) :
  k ∈ ["date"; "category"; "description"; "amount"] → v !! k = None →
  ∃ k', (on_add true v w) = (Raise (missing_key k'), w) ∧ v !! k' = None.
Proof.
  intros Hk Hnone. unfold on_add, getitem, lift, mbind, M_bind.
  destruct (v !! "date") eqn:Hd; [|by exists "date"].
  destruct (v !! "category") eqn:Hc; [|by exists "category"].
  destruct (v !! "description") eqn:Hds; [|by exists "description"].
  destruct (v !! "amount") eqn:Ha; [|by exists "amount"].
  apply list_elem_of_In in Hk. simpl in Hk.
  destruct Hk as [<-|[<-|[<-|[<-|[]]]]]; congruence.
Qed.

Lemma on_manage_raise e d1 (w : MainWindow) :
  manage_dialog (cmb_year w) (cmb_month w + 1) (disk w) = (Raise e, d1) →
  on_manage w = (Raise e, set_disk d1 w).
Proof.
  intros Hm. unfold on_manage, _current_y_m, on_disk.
  unfold mbind, M_bind, zoom. simpl. by rewrite Hm.
Qed.

Lemma on_settings_raise env e d1 (w : MainWindow) :
  settings_dialog (disk w) = (Raise e, d1) →
  on_settings env w = (Raise e, set_disk d1 w).
Proof.
  intros Hs. unfold on_settings, on_disk.
  unfold mbind, M_bind, zoom. by rewrite Hs.
Qed.

Lemma stop_quietly_raise s e : q_stop s = Raise e → stop_quietly s = s.
Proof. unfold stop_quietly. by intros ->. Qed.

Lemma play_same_level_raise level self eff e :
  enabled self = true → 2 ≤ level ≤ 5 → level = cur_level self →
  effects self !! level = Some eff → q_isPlaying eff = Raise e →
  play_for_level level self = (Raise e, self).
Proof.
  intros Hen Hr Hsame Heff Hp. rewrite play_for_level_run. cbv zeta.
  assert (clamp_level level = level) as -> by (unfold clamp_level; lia).
  rewrite Hen. simpl negb. simpl orb.
  rewrite bool_decide_false by (intros Hempty; by rewrite Hempty, lookup_empty in Heff).
  rewrite bool_decide_false by lia. rewrite bool_decide_true by done.
  by rewrite Heff, Hp.
Qed.

Lemma play_switch_raise level self eff e :
  enabled self = true → 2 ≤ level ≤ 5 → level ≠ cur_level self →
  effects self !! level = Some eff → q_setVolume vol_085 (stop_quietly eff) = Raise e →
  play_for_level level self = (Raise e, set_cur_level level (stopped self)).
Proof.
  intros Hen Hr Hne Heff Hv. rewrite play_for_level_run. cbv zeta.
  assert (clamp_level level = level) as -> by (unfold clamp_level; lia).
  rewrite Hen. simpl negb. simpl orb.
  rewrite bool_decide_false by (intros Hempty; by rewrite Hempty, lookup_empty in Heff).
  rewrite bool_decide_false by lia. rewrite bool_decide_false by done.
  rewrite switch_lookup, Heff. simpl fmap. cbv iota.
  unfold on_effect. rewrite switch_lookup, Heff. simpl fmap. cbv iota.
  by rewrite Hv.
Qed.

Lemma init_raise env assets_dir e :
  HAVE_SOUND env = true → wav_exists env 2 = true → q_new = Raise e →
  EMFSound_init env assets_dir true = Raise e.
Proof.
  intros Hh Hw Hn. unfold EMFSound_init, load_effects, new_effect. run_M.
  simpl. by rewrite Hh, Hw, Hn.
Qed.
End Handlers.

(** C5, to the letter, fails: [EMFSound.stop] catches as well.  Were the
    export the only handler, an exception raised by a clip's [stop()] would
    leave [EMFSound.stop]; it does not. *)
Lemma only_export_catches_fails :
  ¬ (∀ (backend : SoundBackend) (self : EMFSound) k s e,
       effects self !! k = Some s → q_stop s = Raise e →
       (stop self).1 = Raise e).
Proof.
  intros Hprop.
  specialize (Hprop qt_stop_raises sound_at_2 2 (clip 2 true)
                (Exn "RuntimeError" "Internal C++ object already deleted.")
                eq_refl eq_refl).
  vm_compute in Hprop. discriminate.
Qed.


(** * Further properties of the code *)

(** ** The constructor of [EMFSound] *)

Lemma init_run_qt env assets_dir en :
  EMFSound_init (backend := qt) env assets_dir en =
    Ok {| enabled := en && HAVE_SOUND env; cur_level := 1;
          effects :=
            if en && HAVE_SOUND env then
              foldl (λ effs lvl,
                       if wav_exists env lvl
                       then <[lvl := loaded_clip assets_dir lvl false]> effs
                       else effs) ∅ [2; 3; 4; 5]
            else ∅ |}.
Proof.
  unfold EMFSound_init, load_effects. run_M. cbn [enabled].
  destruct (en && HAVE_SOUND env); [|done].
  cbn [for_each new_effect q_new q_setSource q_setLoopCount q_setVolume qt
       source loopCount volume playing foldl].
  unfold mbind, M_bind, mret, M_ret.
  destruct (wav_exists env 2), (wav_exists env 3), (wav_exists env 4),
    (wav_exists env 5); reflexivity.
Qed.

Lemma init_loads_existing_clips_aux (env : SoundEnv) (assets_dir : string) (en : bool) :
  ∃ self,
    EMFSound_init (backend := qt) env assets_dir en = Ok self ∧
    ∀ lvl, effects self !! lvl =
      if en && HAVE_SOUND env && bool_decide (2 ≤ lvl ≤ 5) && wav_exists env lvl
      then Some (loaded_clip assets_dir lvl false) else None.
Proof.
  eexists. split; [apply init_run_qt|]. cbn [enabled cur_level effects].
  intros lvl.
  destruct (en && HAVE_SOUND env); [|by rewrite lookup_empty].
  cbn [andb foldl].
  assert (lvl = 2 ∨ lvl = 3 ∨ lvl = 4 ∨ lvl = 5 ∨ ¬ (2 ≤ lvl ≤ 5)) as Hl by lia.
  destruct Hl as [->|[->|[->|[->|Hout]]]].
  - rewrite bool_decide_true by lia. cbn [andb].
    destruct (wav_exists env 2), (wav_exists env 3), (wav_exists env 4),
      (wav_exists env 5); vm_compute; reflexivity.
  - rewrite bool_decide_true by lia. cbn [andb].
    destruct (wav_exists env 2), (wav_exists env 3), (wav_exists env 4),
      (wav_exists env 5);
      repeat (rewrite lookup_insert_ne by done); rewrite ?lookup_insert_eq, ?lookup_empty;
      reflexivity.
  - rewrite bool_decide_true by lia. cbn [andb].
    destruct (wav_exists env 2), (wav_exists env 3), (wav_exists env 4),
      (wav_exists env 5);
      repeat (rewrite lookup_insert_ne by done); rewrite ?lookup_insert_eq, ?lookup_empty;
      reflexivity.
  - rewrite bool_decide_true by lia. cbn [andb].
    destruct (wav_exists env 2), (wav_exists env 3), (wav_exists env 4),
      (wav_exists env 5);
      repeat (rewrite lookup_insert_ne by done); rewrite ?lookup_insert_eq, ?lookup_empty;
      reflexivity.
  - rewrite bool_decide_false by done. cbn [andb].
    destruct (wav_exists env 2), (wav_exists env 3), (wav_exists env 4),
      (wav_exists env 5);
      repeat (rewrite lookup_insert_ne by lia); by rewrite lookup_empty.
Qed.

(** On the documented toolkit the constructor returns an object at level 1
    whose table of effects holds, for exactly the tiers 2..5 whose
    [emf<lvl>.wav] exists, a stopped clip of that file looping 999999 times
    at volume 0.85; it holds nothing when sound is disabled or the import
    failed. *)
Theorem init_loads_existing_clips (env : SoundEnv) (assets_dir : string) (en : bool) :
  ∃ self,
    EMFSound_init (backend := qt) env assets_dir en = Ok self ∧
    enabled self = en && HAVE_SOUND env ∧
    cur_level self = 1 ∧
    ∀ lvl, effects self !! lvl =
      if en && HAVE_SOUND env && bool_decide (2 ≤ lvl ≤ 5) && wav_exists env lvl
      then Some (loaded_clip assets_dir lvl false) else None.
Proof.
  destruct (init_loads_existing_clips_aux env assets_dir en) as (self & Hinit & Hlook).
  exists self. split; [done|].
  rewrite init_run_qt in Hinit. injection Hinit as <-. done.
Qed.

Lemma init_disabled_empty `{SoundBackend} env assets_dir en self :
  EMFSound_init env assets_dir en = Ok self →
  enabled self = en && HAVE_SOUND env ∧ cur_level self = 1 ∧
  (en && HAVE_SOUND env = false → effects self = ∅).
Proof.
  unfold EMFSound_init. intros Hinit.
  pose proof (load_effects_fields env assets_dir
    {| enabled := en && HAVE_SOUND env; cur_level := 1; effects := ∅ |}) as [Hen Hcur].
  assert (en && HAVE_SOUND env = false →
          effects (load_effects env assets_dir
            {| enabled := en && HAVE_SOUND env; cur_level := 1; effects := ∅ |}).2 = ∅)
    as Hempty.
  { intros Hoff. unfold load_effects. run_M. cbn [enabled]. by rewrite Hoff. }
  destruct (load_effects _ _ _) as [[[]|e] s]; [|done].
  injection Hinit as <-. done.
Qed.

(** The call [self._sfx.set_muted(not sound_enabled)] that follows the
    construction of the wrapper in [MainWindow.__init__] changes nothing:
    whatever the toolkit does, an object the constructor returned for a
    setting is left exactly as it is by [set_muted] called with the negation
    of that setting, and the call returns. *)
Theorem init_then_sync_is_noop {backend : SoundBackend} (env : SoundEnv)
    (assets_dir : string) (en : bool) (self : EMFSound) :
  EMFSound_init env assets_dir en = Ok self →
  set_muted env (negb en) self = (Ok tt, self) ∧
  init_sfx env assets_dir en = Ok self.
Proof.
  intros Hinit.
  destruct (init_disabled_empty env assets_dir en self Hinit) as (Hen & Hcur & Hempty).
  assert (set_muted env (negb en) self = (Ok tt, self)) as Hsync.
  { unfold set_muted. run_M. destruct self as [e c effs]. cbn in *. subst e c.
    destruct en; cbn.
    - done.
    - rewrite (Hempty eq_refl), stop_run. unfold stopped, set_enabled.
      cbn [enabled effects]. by rewrite fmap_empty. }
  split; [done|]. unfold init_sfx. by rewrite Hinit, Hsync.
Qed.

Lemma init_then_sync_is_noop_witness :
  ∃ self, EMFSound_init (backend := qt_stop_raises) full_env "assets" true = Ok self ∧
    set_muted (backend := qt_stop_raises) full_env false self = (Ok tt, self).
Proof.
  eexists. split; [vm_compute; reflexivity|].
  apply (init_then_sync_is_noop (backend := qt_stop_raises) full_env "assets" true).
  vm_compute. reflexivity.
Defined.

(** ** Sequences of calls on an [EMFSound] *)

Lemma run_ops_preserves `{SoundBackend} env (P : EMFSound → Prop) :
  (∀ op s, P s → P (run_op env op s).2) →
  ∀ ops s, P s → P (run_ops env ops s).
Proof.
  intros Hop ops. unfold run_ops.
  induction ops as [|op ops IH]; intros s Hs; [done|].
  simpl. apply IH. by apply Hop.
Qed.

Section Frame.
Context {backend : SoundBackend}.

Lemma on_effect_dom k f self :
  dom (effects (on_effect k f self).2) = dom (effects self).
Proof.
  unfold on_effect. destruct (effects self !! k) as [s|] eqn:Hk; [|done].
  destruct (f s); [|done]. cbn [snd set_effects effects].
  by apply dom_insert_lookup_L.
Qed.

Lemma stopped_dom self : dom (effects (stopped self)) = dom (effects self).
Proof. unfold stopped. cbn [effects]. apply dom_fmap_L. Qed.

Lemma play_for_level_frame level self :
  enabled (play_for_level level self).2 = enabled self ∧
  dom (effects (play_for_level level self).2) = dom (effects self).
Proof.
  rewrite play_for_level_run. cbv zeta.
  destruct (negb _ || _); [split; [done|apply stopped_dom]|].
  destruct (bool_decide (_ = 1)); [split; [done|apply stopped_dom]|].
  destruct (bool_decide (_ = cur_level _)).
  - destruct (effects self !! clamp_level level) as [eff|]; [|done].
    destruct (q_isPlaying eff) as [[]|]; try done.
    split; [apply on_effect_fields|apply on_effect_dom].
  - destruct (effects _ !! clamp_level level); [|split; [done|apply stopped_dom]].
    pose proof (on_effect_fields (clamp_level level) (q_setVolume vol_085)
                  (set_cur_level (clamp_level level) (stopped self))) as [He _].
    pose proof (on_effect_dom (clamp_level level) (q_setVolume vol_085)
                  (set_cur_level (clamp_level level) (stopped self))) as Hd.
    destruct (on_effect _ (q_setVolume vol_085) _) as [[[]|e] s2];
      cbn [snd] in *.
    + pose proof (on_effect_fields (clamp_level level) q_play s2) as [He' _].
      pose proof (on_effect_dom (clamp_level level) q_play s2) as Hd'.
      split; [by rewrite He', He|]. rewrite Hd', Hd. apply stopped_dom.
    + split; [by rewrite He|]. rewrite Hd. apply stopped_dom.
Qed.
End Frame.

(** [play_for_level] only starts and stops: whatever the toolkit does and
    whether the call returns or raises, it leaves [enabled] as it was and
    the set of tiers that have a clip as it was. *)
Theorem play_for_level_keeps_clips {backend : SoundBackend} (level : Z) (self : EMFSound) :
  enabled (play_for_level level self).2 = enabled self ∧
  dom (effects (play_for_level level self).2) = dom (effects self).
Proof. apply play_for_level_frame. Qed.

Section Silent.
Context {backend : SoundBackend}.

Lemma run_op_silent env op self :
  HAVE_SOUND env = false →
  enabled self = false ∧ effects self = ∅ ∧ cur_level self = 1 →
  (run_op env op self).1 = Ok tt ∧
  enabled (run_op env op self).2 = false ∧
  effects (run_op env op self).2 = ∅ ∧
  cur_level (run_op env op self).2 = 1.
Proof.
  intros Hhave (Hen & Heff & Hcur). destruct op as [muted| |level]; cbn [run_op].
  - unfold set_muted. run_M. rewrite Hhave, andb_false_r.
    destruct muted; cbn; [|done].
    rewrite stop_run. unfold stopped. cbn. by rewrite Heff, fmap_empty.
  - rewrite stop_run. unfold stopped. cbn. by rewrite Heff, fmap_empty.
  - rewrite play_for_level_run. cbv zeta. rewrite Hen. cbn.
    by rewrite Heff, fmap_empty.
Qed.
End Silent.

(** When the import of [QSoundEffect] failed, the wrapper is inert whatever
    the toolkit would do: the constructor returns, and after any sequence of
    [set_muted], [stop] and [play_for_level] the object is still disabled,
    at level 1 and without a clip; unmuting does not enable it. *)
Theorem no_sound_without_import {backend : SoundBackend} (env : SoundEnv)
    (assets_dir : string) (en : bool) (ops : list sound_op) :
  HAVE_SOUND env = false →
  ∃ self, EMFSound_init env assets_dir en = Ok self ∧
    enabled (run_ops env ops self) = false ∧
    effects (run_ops env ops self) = ∅ ∧
    cur_level (run_ops env ops self) = 1.
Proof.
  intros Hhave.
  exists {| enabled := false; cur_level := 1; effects := ∅ |}. split.
  { unfold EMFSound_init, load_effects. run_M. cbn [enabled].
    by rewrite Hhave, andb_false_r. }
  apply (run_ops_preserves env
           (λ s, enabled s = false ∧ effects s = ∅ ∧ cur_level s = 1)); [|done].
  intros op s Hs. by apply run_op_silent.
Qed.

Lemma no_sound_without_import_witness :
  ∃ self, EMFSound_init (backend := qt) silent_env "assets" true = Ok self ∧
    enabled (run_ops (backend := qt) silent_env
               [SetMuted false; PlayForLevel 5] self) = false ∧
    effects (run_ops (backend := qt) silent_env
               [SetMuted false; PlayForLevel 5] self) = ∅ ∧
    cur_level (run_ops (backend := qt) silent_env
               [SetMuted false; PlayForLevel 5] self) = 1.
Proof.
  apply (no_sound_without_import (backend := qt) silent_env "assets" true
           [SetMuted false; PlayForLevel 5]).
  reflexivity.
Defined.

(** ** The clips over time, on the documented toolkit *)

Lemma stop_quietly_loaded assets_dir lvl eff :
  eff = loaded_clip assets_dir lvl (playing eff) →
  stop_quietly (backend := qt) eff = loaded_clip assets_dir lvl false.
Proof. intros ->. reflexivity. Qed.

Lemma stopped_clips_as_loaded env assets_dir self :
  clips_as_loaded env assets_dir self →
  clips_as_loaded env assets_dir (stopped (backend := qt) self).
Proof.
  intros Hc lvl eff'. rewrite stopped_lookup.
  destruct (effects self !! lvl) as [eff|] eqn:Hl; [|done].
  intros [= <-]. destruct (Hc lvl eff Hl) as (Hr & Hw & He).
  split; [done|]. split; [done|].
  by rewrite (stop_quietly_loaded assets_dir lvl eff He).
Qed.

Lemma insert_clips_as_loaded env assets_dir self lvl eff b :
  clips_as_loaded env assets_dir self →
  effects self !! lvl = Some eff →
  clips_as_loaded env assets_dir
    (set_effects (<[lvl := loaded_clip assets_dir lvl b]> (effects self)) self).
Proof.
  intros Hc Hl k eff'. cbn [set_effects effects]. rewrite lookup_insert.
  case_decide as Hk.
  - subst k. intros [= <-]. destruct (Hc lvl eff Hl) as (Hr & Hw & _). done.
  - apply Hc.
Qed.

Lemma play_for_level_clips_as_loaded env assets_dir level self :
  clips_as_loaded env assets_dir self →
  clips_as_loaded env assets_dir (play_for_level (backend := qt) level self).2.
Proof.
  intros Hc. rewrite play_for_level_run. cbv zeta.
  destruct (negb _ || _); [by apply stopped_clips_as_loaded|].
  destruct (bool_decide (_ = 1)); [by apply stopped_clips_as_loaded|].
  destruct (bool_decide (_ = cur_level _)).
  - destruct (effects self !! clamp_level level) as [eff|] eqn:Heff; [|done].
    cbn [q_isPlaying qt]. destruct (playing eff) eqn:Hp; [done|].
    unfold on_effect. rewrite Heff. cbn [q_play qt snd].
    destruct (Hc _ eff Heff) as (_ & _ & He).
    replace {| source := source eff; loopCount := loopCount eff;
               volume := volume eff; playing := true |}
      with (loaded_clip assets_dir (clamp_level level) true) by (by rewrite He).
    by eapply insert_clips_as_loaded.
  - rewrite switch_lookup.
    destruct (effects self !! clamp_level level) as [eff|] eqn:Heff;
      cbn [fmap option_fmap option_map]; [|by apply stopped_clips_as_loaded].
    pose proof (switch_run_qt self _ eff Heff) as Hrun. cbv zeta in Hrun.
    rewrite Hrun. cbn [snd].
    destruct (Hc _ eff Heff) as (_ & _ & He).
    replace (started eff) with (loaded_clip assets_dir (clamp_level level) true)
      by (by rewrite He).
    apply (insert_clips_as_loaded env assets_dir
             (set_cur_level (clamp_level level) (stopped (backend := qt) self))
             (clamp_level level) (stop_quietly (backend := qt) eff)).
    + intros k e. apply (stopped_clips_as_loaded env assets_dir self Hc k e).
    + by rewrite switch_lookup, Heff.
Qed.

Lemma run_op_clips_as_loaded env assets_dir op self :
  clips_as_loaded env assets_dir self →
  clips_as_loaded env assets_dir (run_op (backend := qt) env op self).2.
Proof.
  intros Hc. destruct op as [muted| |level]; cbn [run_op].
  - unfold set_muted. run_M. destruct muted; cbn [snd]; [|done].
    intros lvl eff. apply (stopped_clips_as_loaded env assets_dir self Hc lvl eff).
  - rewrite stop_run. by apply stopped_clips_as_loaded.
  - by apply play_for_level_clips_as_loaded.
Qed.

Lemma init_clips_as_loaded env assets_dir en self :
  EMFSound_init (backend := qt) env assets_dir en = Ok self →
  clips_as_loaded env assets_dir self.
Proof.
  intros Hinit lvl eff Hl.
  destruct (init_loads_existing_clips_aux env assets_dir en) as (self' & Hinit' & Hlook).
  rewrite Hinit in Hinit'. injection Hinit' as <-.
  rewrite Hlook in Hl.
  destruct (en && HAVE_SOUND env); [|done].
  case_bool_decide; [|done]. cbn [andb] in Hl.
  destruct (wav_exists env lvl) eqn:Hw; [|done].
  by injection Hl as <-.
Qed.

Lemma run_op_sound_inv env op self :
  sound_inv self → sound_inv (run_op (backend := qt) env op self).2.
Proof.
  intros Hinv. destruct op as [muted| |level]; cbn [run_op].
  - by apply set_muted_sound_inv.
  - apply stop_sound_inv.
  - by apply play_for_level_only_playing.
Qed.

(** On the documented toolkit, after the constructor and any sequence of
    [set_muted], [stop] and [play_for_level]: every stored clip is still the
    clip of its own tier 2..5 and file, looping 999999 times at volume 0.85;
    at most one clip plays, the one of [cur_level]; and nothing plays while
    [cur_level] is 1. *)
Theorem clips_over_time (env : SoundEnv) (assets_dir : string) (en : bool)
    (self : EMFSound) (ops : list sound_op) :
  EMFSound_init (backend := qt) env assets_dir en = Ok self →
  let self' := run_ops (backend := qt) env ops self in
  clips_as_loaded env assets_dir self' ∧
  only_playing (cur_level self') self' ∧
  (cur_level self' = 1 → all_stopped self').
Proof.
  intros Hinit. cbv zeta.
  assert (clips_as_loaded env assets_dir (run_ops (backend := qt) env ops self)
          ∧ sound_inv (run_ops (backend := qt) env ops self)) as [Hc Hinv].
  { apply (run_ops_preserves env (λ s, clips_as_loaded env assets_dir s ∧ sound_inv s)).
    - intros op s [Hc Hinv].
      split; [by apply run_op_clips_as_loaded|by apply run_op_sound_inv].
    - split; [by eapply init_clips_as_loaded|by eapply init_sound_inv]. }
  split; [done|]. split; [done|].
  intros Hone k eff Hk. destruct (playing eff) eqn:Hp; [|done].
  pose proof (Hinv k eff Hk Hp) as Hkcur. destruct (Hc k eff Hk) as (Hr & _).
  lia.
Qed.

Lemma clips_over_time_witness :
  ∃ self, EMFSound_init (backend := qt) full_env "assets" true = Ok self ∧
    only_playing 3
      (run_ops (backend := qt) full_env [PlayForLevel 2; PlayForLevel 3] self).
Proof.
  eexists. split; [vm_compute; reflexivity|].
  refine (proj1 (proj2 (clips_over_time full_env "assets" true _
                          [PlayForLevel 2; PlayForLevel 3] _))).
  vm_compute. reflexivity.
Defined.

Lemma stopped_idem self :
  stopped (backend := qt) (stopped (backend := qt) self) = stopped (backend := qt) self.
Proof.
  unfold stopped. cbn [enabled effects]. f_equal.
  rewrite <- map_fmap_compose. apply map_fmap_ext. done.
Qed.

Lemma play_twice_qt (level : Z) (self : EMFSound) :
  play_for_level (backend := qt) level (play_for_level (backend := qt) level self).2
  = (Ok tt, (play_for_level (backend := qt) level self).2).
Proof.
  rewrite (play_for_level_run level self). cbv zeta.
  destruct (negb (enabled self) || bool_decide (effects self = ∅)) eqn:Hguard.
  { cbn [snd]. rewrite play_for_level_run. cbv zeta.
    assert (negb (enabled (stopped (backend := qt) self))
            || bool_decide (effects (stopped (backend := qt) self) = ∅) = true) as ->.
    { unfold stopped. cbn [enabled effects].
      rewrite (bool_decide_ext _ (effects self = ∅)); [done|].
      apply fmap_empty_iff. }
    by rewrite stopped_idem. }
  apply orb_false_iff in Hguard as [Hen Hne%bool_decide_eq_false].
  apply negb_false_iff in Hen.
  assert (∀ s, enabled s = true → dom (effects s) = dom (effects self) →
            negb (enabled s) || bool_decide (effects s = ∅) = false) as Hopen.
  { intros s Hes Hds. rewrite Hes. cbn [negb orb]. apply bool_decide_false.
    intros Hempty. apply Hne. apply dom_empty_iff_L. by rewrite <- Hds, Hempty, dom_empty_L. }
  destruct (decide (clamp_level level = 1)) as [Hone|Hone].
  { rewrite (bool_decide_true _ Hone). cbn [snd].
    rewrite play_for_level_run. cbv zeta.
    rewrite (bool_decide_true _ Hone).
    destruct (negb _ || _); by rewrite stopped_idem. }
  rewrite (bool_decide_false _ Hone).
  destruct (decide (clamp_level level = cur_level self)) as [Hsame|Hdiff].
  - rewrite (bool_decide_true _ Hsame).
    destruct (effects self !! clamp_level level) as [eff|] eqn:Heff.
    + cbn [q_isPlaying qt]. destruct (playing eff) eqn:Hp.
      * cbn [snd]. rewrite play_for_level_run. cbv zeta.
        rewrite (Hopen self Hen eq_refl), (bool_decide_false _ Hone),
          (bool_decide_true _ Hsame), Heff.
        cbn [q_isPlaying qt]. by rewrite Hp.
      * unfold on_effect. rewrite Heff. cbn [q_play qt snd].
        rewrite play_for_level_run. cbv zeta.
        rewrite Hopen; [|done|cbn [set_effects effects]; by apply dom_insert_lookup_L].
        rewrite (bool_decide_false _ Hone).
        cbn [set_effects cur_level effects].
        rewrite (bool_decide_true _ Hsame), lookup_insert_eq. reflexivity.
    + cbn [snd]. rewrite play_for_level_run. cbv zeta.
      by rewrite (Hopen self Hen eq_refl), (bool_decide_false _ Hone),
        (bool_decide_true _ Hsame), Heff.
  - rewrite (bool_decide_false _ Hdiff). rewrite switch_lookup.
    destruct (effects self !! clamp_level level) as [eff|] eqn:Heff;
      cbn [fmap option_fmap option_map].
    + pose proof (switch_run_qt self _ eff Heff) as Hrun. cbv zeta in Hrun.
      rewrite Hrun. cbn [snd].
      rewrite play_for_level_run. cbv zeta.
      rewrite Hopen; [|done|].
      2:{ cbn [set_effects set_cur_level effects].
          rewrite dom_insert_lookup_L; [apply stopped_dom|].
          rewrite stopped_lookup, Heff. by eexists. }
      rewrite (bool_decide_false _ Hone).
      cbn [set_effects set_cur_level cur_level effects].
      rewrite bool_decide_true by done. rewrite lookup_insert_eq. reflexivity.
    + cbn [snd]. rewrite play_for_level_run. cbv zeta.
      rewrite Hopen; [|done|apply stopped_dom].
      rewrite (bool_decide_false _ Hone).
      cbn [set_cur_level cur_level].
      rewrite bool_decide_true by done.
      by rewrite switch_lookup, Heff.
Qed.

(** On the documented toolkit, repeating a call of [play_for_level] with the
    same level changes nothing: the second call returns and leaves the
    object exactly as the first left it (a clip that already plays is not
    restarted). *)
Theorem play_for_level_idempotent (level : Z) (self : EMFSound) :
  play_for_level (backend := qt) level (play_for_level (backend := qt) level self).2
  = (Ok tt, (play_for_level (backend := qt) level self).2).
Proof. apply play_twice_qt. Qed.

(** Muting silences for good, on the documented toolkit: after
    [set_muted(True)] the object is disabled, at level 1, with every clip
    stopped, and any number of [play_for_level] calls, at any levels, leaves
    it so. *)
Theorem muted_stays_silent (env : SoundEnv) (self : EMFSound) (levels : list Z) :
  let self' := run_ops (backend := qt) env
                 (SetMuted true :: (PlayForLevel <$> levels)) self in
  enabled self' = false ∧ cur_level self' = 1 ∧ all_stopped self'.
Proof.
  cbv zeta. unfold run_ops. cbn [foldl run_op].
  assert (enabled (set_muted (backend := qt) env true self).2 = false ∧
          cur_level (set_muted (backend := qt) env true self).2 = 1 ∧
          all_stopped (set_muted (backend := qt) env true self).2) as Hmuted.
  { unfold set_muted. run_M. cbn. split; [done|]. split; [done|].
    apply (stopped_all_stopped (set_enabled false self)). }
  revert Hmuted. generalize (set_muted (backend := qt) env true self).2.
  induction levels as [|level levels IH]; intros s Hs; [done|].
  cbn [fmap list_fmap foldl run_op]. apply IH.
  destruct Hs as (Hen & Hcur & Hall).
  rewrite play_for_level_run. cbv zeta. rewrite Hen. cbn [negb orb snd].
  split; [done|]. split; [done|]. apply stopped_all_stopped.
Qed.

(** ** The thresholds of [emf_level_from_total] *)

Lemma py_ge_int_weaken t (a b : Z) :
  b ≤ a → py_ge t (PInt a) = true → py_ge t (PInt b) = true.
Proof.
  intros Hba. unfold py_ge, py_le. apply xle_trans. cbn.
  apply Qle_bool_iff. unfold Qle. cbn. lia.
Qed.

(** The tier is at least [k + 1] exactly when the total is at least
    [500 * k] under Python's [>=], for k = 1..4; in particular the bounds
    500, 1000, 1500 and 2000 belong to the upper tier, and a NaN, for which
    every comparison is false, is of tier 1. *)
Theorem emf_level_thresholds (total : pynum) :
  (2 ≤ emf_level_from_total total ↔ py_ge total (PInt 500) = true) ∧
  (3 ≤ emf_level_from_total total ↔ py_ge total (PInt 1000) = true) ∧
  (4 ≤ emf_level_from_total total ↔ py_ge total (PInt 1500) = true) ∧
  (5 ≤ emf_level_from_total total ↔ py_ge total (PInt 2000) = true) ∧
  (value total = XNan → emf_level_from_total total = 1).
Proof.
  pose proof (py_ge_int_weaken total 2000 1500) as H54.
  pose proof (py_ge_int_weaken total 1500 1000) as H43.
  pose proof (py_ge_int_weaken total 1000 500) as H32.
  unfold emf_level_from_total.
  destruct (py_ge total (PInt 2000)) eqn:H5;
    [rewrite (H54 ltac:(lia) eq_refl) in *|];
    (destruct (py_ge total (PInt 1500)) eqn:H4;
      [rewrite (H43 ltac:(lia) eq_refl) in *|]);
    (destruct (py_ge total (PInt 1000)) eqn:H3;
      [rewrite (H32 ltac:(lia) eq_refl) in *|]);
    destruct (py_ge total (PInt 500)) eqn:H2;
    try discriminate;
    (split_and!; try (split; (lia || done));
     intros Hnan; unfold py_ge, py_le in *; rewrite Hnan in *; cbn in *;
     discriminate).
Qed.

(** ** The EMF indicator *)

(** [_set_emf_ui] on a tier 1..5 returns and writes the dot and the label
    and nothing else; on any other level the lookup in [colors] raises
    [KeyError] before either widget is written, so the window is as it was;
    and the five tiers have five different colours. *)
Theorem set_emf_ui_cases {modules : AppModules} (level : Z) (w : MainWindow) :
  (1 ≤ level ≤ 5 →
     ∃ color, colors !! level = Some color ∧
       _set_emf_ui level w
       = (Ok tt, set_lbl_emf ("EMF " +:+ pretty level) (set_emf_dot (style_of color) w))) ∧
  (¬ 1 ≤ level ≤ 5 →
     _set_emf_ui level w = (Raise (Exn "KeyError" (pretty level)), w)) ∧
  (∀ l1 l2 color, colors !! l1 = Some color → colors !! l2 = Some color → l1 = l2).
Proof.
  split_and!.
  - intros Hr. destruct (colors_lookup level Hr) as [color Hc].
    exists color. split; [done|]. unfold _set_emf_ui. by rewrite Hc.
  - intros Hout. unfold _set_emf_ui. by rewrite (colors_lookup_none level Hout).
  - intros l1 l2 color H1%colors_lookup_cases H2%colors_lookup_cases.
    destruct H1 as [[-> ->]|[[-> ->]|[[-> ->]|[[-> ->]|[-> ->]]]]];
      destruct H2 as [[-> ?]|[[-> ?]|[[-> ?]|[[-> ?]|[-> ?]]]]]; done.
Qed.

Lemma set_emf_ui_cases_witness :
  _set_emf_ui 9 (mem_window false)
  = (Raise (Exn "KeyError" "9"), mem_window false) ∧
  lbl_emf (_set_emf_ui 3 (mem_window false)).2 = "EMF 3".
Proof.
  destruct (set_emf_ui_cases 9 (mem_window false)) as (_ & Hout & _).
  destruct (set_emf_ui_cases 3 (mem_window false)) as (Hin & _).
  split.
  - apply Hout. lia.
  - destruct Hin as (color & _ & ->); [lia|]. reflexivity.
Defined.

(** ** One record in the table *)

Section RowFrame.
Context {host : Host} {modules : AppModules}.

Lemma setItem_last t row c it (w : MainWindow) :
  setItem (length t) c it (set_table (t ++ [row]) w)
  = (Ok tt, set_table (t ++ [row_setItem c it row]) w).
Proof. unfold setItem, modify. cbn [table set_table]. by rewrite alter_last. Qed.

Lemma setRowHeight_last t row h (w : MainWindow) :
  setRowHeight (length t) h (set_table (t ++ [row]) w)
  = (Ok tt, set_table (t ++ [row_setHeight h row]) w).
Proof. unfold setRowHeight, modify. cbn [table set_table]. by rewrite alter_last. Qed.

Lemma insertRow_last (w : MainWindow) :
  insertRow (length (table w)) w = (Ok tt, set_table (table w ++ [empty_row]) w).
Proof.
  unfold insertRow, modify. rewrite bool_decide_true by done.
  by rewrite firstn_all, drop_all.
Qed.

Lemma render_row_frame r (w : MainWindow) :
  ∃ row, (render_row r w).2 = set_table (table w ++ [row]) w.
Proof.
  unfold render_row, rowCount, getitem. unfold mbind, M_bind, lift.
  rewrite insertRow_last.
  destruct (r !! "date") as [date|]; [|by eexists].
  destruct (QTableWidgetItem date) as [it0|]; [|by eexists].
  rewrite setItem_last.
  destruct (r !! "category") as [category|]; [|by eexists].
  destruct (QTableWidgetItem category) as [it1|]; [|by eexists].
  rewrite setItem_last.
  destruct (r !! "description") as [description|]; [|by eexists].
  destruct (QTableWidgetItem (py_or description (VStr ""))) as [desc|]; [|by eexists].
  rewrite setItem_last.
  destruct (r !! "amount") as [amount|]; [|by eexists].
  destruct (fmt_2f amount) as [amount_text|]; [|by eexists].
  cbn [QTableWidgetItem]. rewrite setItem_last, setRowHeight_last.
  by eexists.
Qed.

Lemma render_row_missing_date r (w : MainWindow) :
  r !! "date" = None →
  render_row r w = (Raise (missing_key "date"), set_table (table w ++ [empty_row]) w).
Proof.
  intros Hd. unfold render_row, rowCount, getitem. unfold mbind, M_bind, lift.
  rewrite insertRow_last. by rewrite Hd.
Qed.

Lemma on_add_untouched v k (w : MainWindow) `{SoundBackend} :
  k ∈ ["date"; "category"; "description"; "amount"] → v !! k = None →
  ∃ k', v !! k' = None ∧ on_add true v w = (Raise (missing_key k'), w).
Proof.
  intros Hk Hnone. destruct (on_add_missing v k w Hk Hnone) as (k' & Hrun & Hk').
  by exists k'.
Qed.
End RowFrame.

(** Rendering one record, whether it returns or raises on a missing or
    ill-typed field, appends exactly one row at the bottom of the table and
    touches nothing else: the rows above, the labels, the store, the sound
    object and the message boxes are as before. *)
Theorem render_row_appends_one {host : Host} {modules : AppModules}
    (r : gmap string pyval) (w : MainWindow) :
  ∃ row, (render_row r w).2 = set_table (table w ++ [row]) w.
Proof. apply render_row_frame. Qed.

(** [on_add] reads the four keys before it calls [add_expense]: when the
    dialog's mapping lacks one of them the handler raises the store's
    missing-key error for a key that is indeed missing, nothing is added
    and the window is left exactly as it was. *)
Theorem on_add_missing_field {backend : SoundBackend} {host : Host}
    {modules : AppModules} (v : gmap string pyval) (k : string) (w : MainWindow) :
  k ∈ ["date"; "category"; "description"; "amount"] →
  v !! k = None →
  ∃ k', v !! k' = None ∧ on_add true v w = (Raise (missing_key k'), w).
Proof. intros. by eapply on_add_untouched. Qed.

Lemma on_add_missing_field_witness :
  ∃ k', delete "amount" (expense "2024-05-09" "Fuel" "" 70) !! k' = None ∧
    on_add (backend := qt) (host := plain_host) true
      (delete "amount" (expense "2024-05-09" "Fuel" "" 70)) (mem_window false)
    = (Raise (@missing_key mem_modules k'), mem_window false).
Proof.
  apply (on_add_missing_field (backend := qt) (host := plain_host)
           (delete "amount" (expense "2024-05-09" "Fuel" "" 70)) "amount").
  - apply list_elem_of_In. simpl. tauto.
  - vm_compute. reflexivity.
Defined.

(** A cancelled save dialog ends [on_export] quietly: no file is written,
    no message box is shown, and the handler returns; but the currency
    setting is read before the dialog opens, so a settings mapping without
    ["currency"] makes the handler raise whatever the user would have
    chosen. *)
Theorem on_export_cancel_or_no_currency {modules : AppModules} (w : MainWindow)
    (settings : gmap string pyval) (d1 : Disk) :
  get_settings (disk w) = (Ok settings, d1) →
  (∀ cur, settings !! "currency" = Some cur →
     on_export "" w = (Ok tt, set_disk d1 w)) ∧
  (settings !! "currency" = None →
     ∀ path, on_export path w = (Raise (missing_key "currency"), set_disk d1 w)).
Proof.
  intros Hset. split.
  - intros cur Hcur. by eapply on_export_cancelled.
  - intros Hnone path. unfold on_export, _current_y_m, on_disk, getitem.
    unfold mbind, M_bind, zoom, lift. cbn. rewrite Hset. cbn. by rewrite Hnone.
Qed.

Lemma on_export_cancel_or_no_currency_witness :
  on_export "" (mem_window false) = (Ok tt, mem_window false).
Proof.
  destruct (on_export_cancel_or_no_currency (mem_window false)
              (saved_settings (mem_disk false)) (mem_disk false) eq_refl) as [Hcancel _].
  apply (Hcancel (VStr "$")). vm_compute. reflexivity.
Defined.

(** ** [reload] at its edges *)

Lemma for_each_app {S A} (xs ys : list A) (body : A → M S unit) (s : S) :
  for_each (xs ++ ys) body s = (for_each xs body ≫= λ _, for_each ys body) s.
Proof.
  revert s. induction xs as [|x xs IH]; intros s; [done|].
  cbn [app for_each]. unfold mbind, M_bind in *.
  destruct (body x s) as [[[]|e] s']; [|done]. apply IH.
Qed.

Section ReloadEdges.
Context {backend : SoundBackend} {host : Host} {modules : AppModules}.

Lemma reload_bad_record_run good bad rest trows d1 (w : MainWindow) :
  list_month (cmb_year w) (cmb_month w + 1) (disk w) = (Ok (good ++ bad :: rest), d1) →
  mapM rendered good = Some trows →
  bad !! "date" = None →
  reload w = (Raise (missing_key "date"),
              set_table (trows ++ [empty_row]) (set_disk d1 w)).
Proof.
  intros Hlist Hgood Hbad.
  unfold reload, _current_y_m, on_disk, setRowCount.
  unfold mbind, M_bind, zoom, modify. cbn. rewrite Hlist. cbn.
  rewrite for_each_app. unfold mbind, M_bind.
  rewrite (for_each_render_run good trows _ Hgood). cbn [for_each].
  unfold mbind, M_bind. rewrite (render_row_missing_date bad _ Hbad).
  reflexivity.
Qed.

Lemma for_each_render_sfx rows (w : MainWindow) :
  sfx (for_each rows render_row w).2 = sfx w.
Proof.
  apply (for_each_preserves (λ s : MainWindow, sfx s = sfx w)); [|done].
  intros r s Hs. destruct (render_row_frame r s) as [row ->]. done.
Qed.

Lemma reload_sfx (w : MainWindow) :
  sfx (reload w).2 = sfx w ∨
  ∃ lvl, sfx (reload w).2 = (play_for_level lvl (sfx w)).2.
Proof.
  unfold reload, _current_y_m, on_disk, on_sfx, setRowCount, _set_emf_ui, getitem.
  unfold mbind, M_bind, zoom, modify, lift, raise. cbn.
  destruct (list_month _ _ _) as [[rows|e] d1]; cbn; [|by left].
  pose proof (for_each_render_sfx rows (set_table [] (set_disk d1 w))) as Hsfx.
  destruct (for_each rows render_row _) as [[[]|e] w1]; cbn in *; [|by left].
  destruct (get_settings (disk w1)) as [[settings|e] d2]; cbn; [|by left].
  destruct (settings !! "currency") as [cur|]; cbn; [|by left].
  destruct (month_total _ _ d2) as [[total|e] d3]; cbn; [|by left].
  destruct (colors !! _); cbn; [|by left].
  unfold mbind, M_bind. cbn. right. exists (emf_level_from_total total).
  rewrite Hsfx. by destruct (play_for_level _ _).
Qed.
End ReloadEdges.

(** One bad record stops [reload] half-way: when the first record lacking a
    date comes after records that render, the handler raises the store's
    missing-key error, the table holds the rows rendered so far followed by
    one blank row, and the total label, the EMF indicator and the sound are
    left as they were before the reload. *)
Theorem reload_bad_record {backend : SoundBackend} {host : Host} {modules : AppModules}
    (w : MainWindow) good bad rest trows d1 :
  list_month (cmb_year w) (cmb_month w + 1) (disk w) = (Ok (good ++ bad :: rest), d1) →
  mapM rendered good = Some trows →
  bad !! "date" = None →
  reload w = (Raise (missing_key "date"),
              set_table (trows ++ [empty_row]) (set_disk d1 w)).
Proof. apply reload_bad_record_run. Qed.

(** On the documented toolkit, and while the store's queries answer the
    same without changing anything, reloading twice is reloading once: the
    second [reload] returns and leaves the window exactly as the first left
    it, the clip already playing included. *)
Theorem reload_idempotent {host : Host} {modules : AppModules} (w : MainWindow)
    rows trows settings cur total :
  list_month (cmb_year w) (cmb_month w + 1) (disk w) = (Ok rows, disk w) →
  mapM rendered rows = Some trows →
  get_settings (disk w) = (Ok settings, disk w) →
  settings !! "currency" = Some cur →
  month_total (cmb_year w) (cmb_month w + 1) (disk w) = (Ok total, disk w) →
  (reload (backend := qt) w).1 = Ok tt ∧
  reload (backend := qt) (reload (backend := qt) w).2
  = (Ok tt, (reload (backend := qt) w).2).
Proof.
  intros Hlist Hrows Hset Hcur Htotal.
  destruct (colors_lookup _ (emf_level_range total)) as [color Hcolor].
  rewrite (reload_run (backend := qt) w rows trows (disk w) settings (disk w) cur total
             (disk w) color) by done.
  cbn [fst snd]. split; [apply play_for_level_returns_qt|].
  erewrite reload_run; cbn [disk cmb_year cmb_month sfx shown]; try done.
  rewrite play_twice_qt. reflexivity.
Qed.

Lemma reload_bad_record_witness :
  reload (backend := qt) (host := plain_host) torn_window
  = (Raise (Exn "KeyError" "date"),
     set_table
       (default [] (mapM (rendered (host := plain_host))
                      [expense "2024-05-01" "Rent" "" 900]) ++ [empty_row])
       torn_window).
Proof.
  apply (reload_bad_record (backend := qt) (host := plain_host) torn_window
           [expense "2024-05-01" "Rent" "" 900]
           (delete "date" (expense "2024-05-03" "Food" "market" 640)) []
           _ torn_disk).
  - reflexivity.
  - vm_compute. reflexivity.
  - vm_compute. reflexivity.
Defined.

Lemma reload_idempotent_witness :
  reload (backend := qt) (host := plain_host)
    (reload (backend := qt) (host := plain_host) (mem_window false)).2
  = (Ok tt, (reload (backend := qt) (host := plain_host) (mem_window false)).2).
Proof.
  refine (proj2 (reload_idempotent (host := plain_host) (mem_window false)
                   (expenses (mem_disk false))
                   (default [] (mapM (rendered (host := plain_host))
                                  (expenses (mem_disk false))))
                   (saved_settings (mem_disk false)) (VStr "$") (PInt 1540)
                   _ _ _ _ _)).
  - reflexivity.
  - vm_compute. reflexivity.
  - reflexivity.
  - vm_compute. reflexivity.
  - vm_compute. reflexivity.
Defined.

(** ** The settings handler *)

Section Settings.
Context {host : Host} {modules : AppModules}.

Lemma on_settings_mute_run env cur d1 (w : MainWindow) :
  settings_dialog (disk w) = (Ok (true, false, cur), d1) →
  enabled (sfx (on_settings (backend := qt) env w).2) = false ∧
  cur_level (sfx (on_settings (backend := qt) env w).2) = 1 ∧
  all_stopped (sfx (on_settings (backend := qt) env w).2).
Proof.
  intros Hdlg. unfold on_settings, on_disk, on_sfx.
  unfold mbind, M_bind, zoom. rewrite Hdlg. cbn [negb].
  unfold set_muted. run_M. cbn [negb andb]. rewrite stop_run.
  set (w1 := set_sfx (stopped (backend := qt) (set_enabled false (sfx (set_disk d1 w))))
               (set_disk d1 w)).
  assert (enabled (sfx w1) = false ∧ cur_level (sfx w1) = 1 ∧ all_stopped (sfx w1))
    as (Hen & Hcur & Hall).
  { subst w1. cbn. split; [done|]. split; [done|].
    apply (stopped_all_stopped (set_enabled false (sfx w))). }
  destruct (reload_sfx (backend := qt) w1) as [Hsame|[lvl Hplay]].
  - by rewrite Hsame.
  - rewrite Hplay. rewrite play_for_level_run. cbv zeta. rewrite Hen.
    cbn [negb orb snd]. split; [done|]. split; [done|]. apply stopped_all_stopped.
Qed.

Lemma on_settings_cancel_run `{SoundBackend} env en cur d1 (w : MainWindow) :
  settings_dialog (disk w) = (Ok (false, en, cur), d1) →
  on_settings env w = (Ok tt, set_disk d1 w).
Proof.
  intros Hdlg. unfold on_settings, on_disk.
  unfold mbind, M_bind, zoom. by rewrite Hdlg.
Qed.
End Settings.

(** Switching sound off in the settings dialog silences at once, on the
    documented toolkit: after [on_settings] the sound object is disabled,
    at level 1 and every clip is stopped, however the reload that follows
    goes (also when it raises); a dismissed dialog changes nothing in the
    window. *)
Theorem on_settings_mutes {host : Host} {modules : AppModules} (env : SoundEnv)
    (w : MainWindow) (d1 : Disk) :
  (∀ cur, settings_dialog (disk w) = (Ok (true, false, cur), d1) →
     enabled (sfx (on_settings (backend := qt) env w).2) = false ∧
     cur_level (sfx (on_settings (backend := qt) env w).2) = 1 ∧
     all_stopped (sfx (on_settings (backend := qt) env w).2)) ∧
  (∀ en cur, settings_dialog (disk w) = (Ok (false, en, cur), d1) →
     on_settings (backend := qt) env w = (Ok tt, set_disk d1 w)).
Proof.
  split.
  - intros cur. apply on_settings_mute_run.
  - intros en cur. apply on_settings_cancel_run.
Qed.

Lemma on_settings_mutes_witness :
  enabled (sfx (on_settings (backend := qt) (host := plain_host) full_env
                  muting_window).2) = false ∧
  cur_level (sfx (on_settings (backend := qt) (host := plain_host) full_env
                    muting_window).2) = 1 ∧
  all_stopped (sfx (on_settings (backend := qt) (host := plain_host) full_env
                      muting_window).2).
Proof.
  apply (proj1 (on_settings_mutes (host := plain_host) full_env muting_window
                  (mem_disk false)) (VStr "$")).
  reflexivity.
Defined.

(** ** The year and month boxes *)

Lemma foldl_addItem {A} (f : A → string) (l : list A) (b : QComboBox) :
  items (foldl (λ box y, addItem (f y) box) b l) = items b ++ (f <$> l) ∧
  currentIndex (foldl (λ box y, addItem (f y) box) b l)
  = if bool_decide (items b = []) then (if bool_decide (l = []) then currentIndex b else 0)
    else currentIndex b.
Proof.
  revert b. induction l as [|y l IH]; intros b.
  - cbn. rewrite app_nil_r. split; [done|]. by repeat case_bool_decide.
  - cbn [foldl fmap list_fmap]. destruct (IH (addItem (f y) b)) as [-> ->].
    cbn [addItem items currentIndex]. split; [by rewrite <- app_assoc|].
    rewrite (bool_decide_false (items b ++ [f y] = [])) by (by destruct (items b)).
    rewrite (bool_decide_false (y :: l = [])) by done.
    done.
Qed.

Lemma sorted_set_spec (ys : list Z) :
  StronglySorted Z.lt (sorted_set ys) ∧ (∀ y, y ∈ sorted_set ys ↔ y ∈ ys).
Proof.
  unfold sorted_set.
  pose proof (merge_sort_Permutation Z.le (remove_dups ys)) as Hperm.
  split.
  - assert (NoDup (merge_sort Z.le (remove_dups ys))) as Hnd.
    { rewrite Hperm. apply NoDup_remove_dups. }
    pose proof (StronglySorted_merge_sort Z.le (remove_dups ys)) as Hs.
    revert Hnd Hs. generalize (merge_sort Z.le (remove_dups ys)). clear.
    induction l as [|x l IH]; intros Hnd Hs; [constructor|].
    apply NoDup_cons in Hnd as [Hx Hnd]. inversion Hs as [|? ? Hs' Hall]; subst.
    constructor; [by apply IH|].
    rewrite Forall_forall in *. intros y Hy.
    assert (x ≠ y) by (intros ->; by apply Hx).
    specialize (Hall y Hy). by apply Z.le_neq.
  - intros y. rewrite Hperm. apply elem_of_remove_dups.
Qed.

Lemma fill_years_items ys cy :
  ∃ years,
    items (_fill_years ys cy new_box) = pretty <$> years ∧
    currentIndex (_fill_years ys cy new_box) = 0 ∧
    StronglySorted Z.lt years ∧
    (∀ y, y ∈ years ↔ y ∈ ys ∨ y = cy).
Proof.
  unfold _fill_years. cbv zeta.
  set (ys' := if bool_decide (cy ∈ ys) then ys else ys ++ [cy]).
  assert (∀ y, y ∈ ys' ↔ y ∈ ys ∨ y = cy) as Hmem.
  { intros y. subst ys'. case_bool_decide as Hin.
    - split; [tauto|]. intros [?| ->]; done.
    - rewrite elem_of_app, list_elem_of_singleton. done. }
  destruct (sorted_set_spec ys') as [Hsorted Hset].
  destruct (foldl_addItem (pretty : Z → string) (sorted_set ys') new_box) as [Hitems Hcur].
  exists (sorted_set ys'). split; [done|]. split.
  - rewrite Hcur. cbn [new_box items]. rewrite bool_decide_true by done.
    rewrite bool_decide_false; [done|].
    intros Hnil. assert (cy ∈ sorted_set ys') as Hcy by (apply Hset, Hmem; by right).
    rewrite Hnil in Hcy. by apply not_elem_of_nil in Hcy.
  - split; [done|]. intros y. by rewrite Hset.
Qed.

Lemma setCurrentText_present t (b : QComboBox) :
  t ∈ items b → currentText (setCurrentText t b) = t.
Proof.
  intros Hin. unfold setCurrentText, findText. cbv zeta.
  destruct (list_find_elem_of (λ x, x = t) (items b) t Hin eq_refl) as [[i x] Hfind].
  rewrite Hfind. apply list_find_Some in Hfind as (Hi & -> & _).
  rewrite bool_decide_true by lia.
  unfold setCurrentIndex, currentText. cbn [items currentIndex].
  apply lookup_lt_Some in Hi as Hlt.
  rewrite (bool_decide_true (0 ≤ Z.of_nat i < Z.of_nat (length (items b)))) by lia.
  rewrite bool_decide_true by lia.
  by rewrite Nat2Z.id, Hi.
Qed.

(** [_fill_years] on the empty year box adds, as texts, exactly the years
    the store knows together with the current year, each once and in
    strictly ascending order, and makes the first of them current; so the
    [_select_now] that follows finds the current year and the box then
    shows it. *)
Theorem fill_years_then_select (ys : list Z) (cy : Z) :
  (∃ years,
     items (_fill_years ys cy new_box) = pretty <$> years ∧
     StronglySorted Z.lt years ∧
     (∀ y, y ∈ years ↔ y ∈ ys ∨ y = cy)) ∧
  NoDup (items (_fill_years ys cy new_box)) ∧
  currentIndex (_fill_years ys cy new_box) = 0 ∧
  ∀ month_box month,
    currentText (_select_now cy month (_fill_years ys cy new_box, month_box)).1
    = pretty cy.
Proof.
  destruct (fill_years_items ys cy) as (years & Hitems & Hcur & Hsorted & Hmem).
  split; [by exists years|]. split; [|split; [done|]].
  - rewrite Hitems. apply (NoDup_fmap_2 _).
    clear -Hsorted. induction Hsorted as [|x l _ IH Hall]; [constructor|].
    apply NoDup_cons. split; [|done].
    intros Hx. rewrite Forall_forall in Hall. specialize (Hall x Hx). lia.
  - intros month_box month. cbn [_select_now fst].
    apply setCurrentText_present. rewrite Hitems.
    apply list_elem_of_fmap. exists cy. split; [done|]. apply Hmem. by right.
Qed.

(** [_fill_months] on the empty month box adds the twelve month names in
    order, and [_select_now] for a month 1..12 selects the name of that
    month: the current index plus one, which is the month [_current_y_m]
    hands to the store, is that month again. *)
Theorem fill_months_then_select (month_name : Z → string) (year_box : QComboBox)
    (year month : Z) :
  1 ≤ month ≤ 12 →
  let cmb_month := (_select_now year month (year_box, _fill_months month_name new_box)).2 in
  items cmb_month = month_name <$> seqZ 1 12 ∧
  length (items cmb_month) = 12%nat ∧
  currentIndex cmb_month + 1 = month ∧
  currentText cmb_month = month_name month.
Proof.
  intros Hm. cbv zeta. cbn [_select_now snd]. unfold _fill_months.
  destruct (foldl_addItem month_name (seqZ 1 12) new_box) as [Hitems _].
  cbn [new_box items app] in Hitems.
  unfold setCurrentIndex, currentText. cbn [items currentIndex].
  rewrite Hitems. rewrite length_fmap, length_seqZ.
  rewrite (bool_decide_true (0 ≤ month - 1 < _)) by lia.
  rewrite bool_decide_true by lia.
  split; [done|]. split; [done|]. split; [lia|].
  rewrite list_lookup_fmap.
  rewrite (lookup_seqZ_lt 1 12 (Z.to_nat (month - 1))) by lia.
  cbn. f_equal. lia.
Qed.

Lemma fill_months_then_select_witness :
  currentIndex (_select_now 2024 5 (new_box, _fill_months pretty new_box)).2 + 1 = 5 ∧
  currentText (_select_now 2024 5 (new_box, _fill_months pretty new_box)).2 = "5".
Proof.
  destruct (fill_months_then_select pretty new_box 2024 5) as (_ & _ & Hidx & Htext).
  - lia.
  - split; [exact Hidx|exact Htext].
Defined.

Example fill_years_example :
  items (_fill_years [2023; 2021; 2023] 2024 new_box) = ["2021"; "2023"; "2024"].
Proof. vm_compute. reflexivity. Qed.

Lemma emf_level_thresholds_witness :
  emf_level_from_total (PFloat FNan) = 1 ∧
  (3 ≤ emf_level_from_total (PInt 1000) ↔ py_ge (PInt 1000) (PInt 1000) = true).
Proof.
  split.
  - apply (emf_level_thresholds (PFloat FNan)). reflexivity.
  - apply (emf_level_thresholds (PInt 1000)).
Defined.

(** ** Muting and unmuting *)

Lemma resume_after_unmute_run env self lvl eff :
  HAVE_SOUND env = true → 2 ≤ lvl ≤ 5 → effects self !! lvl = Some eff →
  run_ops (backend := qt) env [SetMuted true; SetMuted false; PlayForLevel lvl] self
  = {| enabled := true; cur_level := lvl;
       effects := <[lvl := started eff]> (stop_quietly (backend := qt) <$>
                    (stop_quietly (backend := qt) <$> effects self)) |}.
Proof.
  intros Hhave Hr Heff. unfold run_ops. cbn [foldl run_op].
  unfold set_muted. run_M. cbn [negb andb]. rewrite Hhave. rewrite stop_run.
  cbn [snd].
  set (s1 := set_enabled true (stopped (backend := qt) (set_enabled false self))).
  assert (effects s1 !! lvl = Some (stop_quietly (backend := qt) eff)) as Hl1.
  { subst s1. cbn [set_enabled effects stopped]. by rewrite lookup_fmap, Heff. }
  rewrite play_for_level_run. cbv zeta.
  assert (clamp_level lvl = lvl) as -> by (unfold clamp_level; lia).
  assert (negb (enabled s1) || bool_decide (effects s1 = ∅) = false) as ->.
  { assert (enabled s1 = true) as -> by done. cbn [negb orb].
    apply bool_decide_false. intros Hempty.
    by rewrite Hempty, lookup_empty in Hl1. }
  rewrite bool_decide_false by lia.
  rewrite (bool_decide_false (lvl = cur_level s1)) by (subst s1; cbn; lia).
  rewrite switch_lookup, Hl1. cbn [fmap option_fmap option_map].
  pose proof (switch_run_qt s1 lvl _ Hl1) as Hrun. cbv zeta in Hrun.
  rewrite Hrun. reflexivity.
Qed.

(** Muting resets [cur_level] to 1, so sound comes back after unmuting: on
    the documented toolkit with the import in place, [set_muted(True)],
    [set_muted(False)] and then [play_for_level] for a tier 2..5 that has a
    clip leave the object enabled, at that tier, with that clip playing at
    volume 0.85 and no other clip playing. *)
Theorem resume_after_unmute (env : SoundEnv) (self : EMFSound) (lvl : Z)
    (eff : QSoundEffect) :
  HAVE_SOUND env = true → 2 ≤ lvl ≤ 5 → effects self !! lvl = Some eff →
  let self' := run_ops (backend := qt) env
                 [SetMuted true; SetMuted false; PlayForLevel lvl] self in
  enabled self' = true ∧ cur_level self' = lvl ∧
  effects self' !! lvl = Some (started eff) ∧
  (∀ k eff', effects self' !! k = Some eff' → k ≠ lvl → playing eff' = false).
Proof.
  intros Hhave Hr Heff. cbv zeta.
  rewrite (resume_after_unmute_run env self lvl eff) by done.
  cbn [enabled cur_level effects]. split; [done|]. split; [done|].
  split; [by rewrite lookup_insert_eq|].
  intros k eff' Hk Hne. rewrite lookup_insert_ne in Hk by done.
  rewrite !lookup_fmap in Hk. destruct (effects self !! k); [|done].
  cbn in Hk. by injection Hk as <-.
Qed.

Lemma resume_after_unmute_witness :
  effects (run_ops (backend := qt) full_env
             [SetMuted true; SetMuted false; PlayForLevel 3] sound_at_2) !! 3
  = Some (started (clip 3 false)).
Proof.
  refine (proj1 (proj2 (proj2 (resume_after_unmute full_env sound_at_2 3 (clip 3 false)
                                 _ _ _)))).
  - reflexivity.
  - lia.
  - reflexivity.
Defined.

(** ** Every call site, and what becomes of an exception there *)

Section Strict.
Context {backend : SoundBackend} {host : Host} {modules : AppModules}.

Lemma new_effect_strict src : new_effect src = new_effect_outcome src.
Proof.
  unfold new_effect, new_effect_outcome, and_then.
  destruct q_new as [s0|]; [|done].
  destruct (q_setSource src s0) as [s1|]; [|done].
  by destruct (q_setLoopCount 999999 s1).
Qed.

Lemma for_each_outcome {S A} (xs : list A) (body : A → M S unit) (out : A → result unit) :
  (∀ x s, (body x s).1 = out x) →
  ∀ s, (for_each xs body s).1 = all_ok (out <$> xs).
Proof.
  intros Hbody. induction xs as [|x xs IH]; intros s; [done|].
  cbn [for_each fmap list_fmap all_ok foldr]. unfold mbind, M_bind.
  specialize (Hbody x s). destruct (body x s) as [[[]|e] s']; cbn in Hbody;
    rewrite <- Hbody; cbn [and_then]; [apply IH|done].
Qed.

Lemma load_body_outcome env assets_dir lvl (self : EMFSound) :
  ((if wav_exists env lvl then
      s ← lift (new_effect (wav_path assets_dir lvl));
      modify (λ self, set_effects (<[lvl := s]> (effects self)) self)
    else mret tt) self).1
  = if wav_exists env lvl then outcome (new_effect (wav_path assets_dir lvl)) else Ok tt.
Proof.
  destruct (wav_exists env lvl); [|done].
  unfold mbind, M_bind, lift, modify. by destruct (new_effect _).
Qed.

Lemma init_strict env assets_dir en :
  outcome (EMFSound_init env assets_dir en) = init_outcome env assets_dir en.
Proof.
  unfold EMFSound_init, init_outcome, load_effects.
  unfold mbind at 1. unfold M_bind at 1. unfold get. cbn [enabled].
  destruct (en && HAVE_SOUND env); [|done].
  pose proof (for_each_outcome [2; 3; 4; 5] _ _ (load_body_outcome env assets_dir)
                {| enabled := true; cur_level := 1; effects := ∅ |}) as Hloop.
  destruct (for_each _ _ _) as [[[]|e] s]; cbn [fst] in Hloop; by rewrite <- Hloop.
Qed.

Lemma set_muted_returns env muted self : (set_muted env muted self).1 = Ok tt.
Proof. unfold set_muted. run_M. by destruct muted. Qed.

Lemma play_for_level_strict level self :
  (play_for_level level self).1 = play_outcome level self.
Proof.
  rewrite play_for_level_run. unfold play_outcome. cbv zeta.
  destruct (negb _ || _); [done|].
  destruct (bool_decide (_ = 1)); [done|].
  destruct (bool_decide (_ = cur_level _)).
  - destruct (effects self !! clamp_level level) as [eff|] eqn:Heff; [|done].
    destruct (q_isPlaying eff) as [[]|]; cbn [and_then]; try done.
    unfold on_effect. rewrite Heff. by destruct (q_play eff).
  - rewrite switch_lookup.
    destruct (effects self !! clamp_level level) as [eff|] eqn:Heff;
      cbn [fmap option_fmap option_map]; [|done].
    unfold on_effect at 1. rewrite switch_lookup, Heff.
    cbn [fmap option_fmap option_map].
    destruct (q_setVolume vol_085 (stop_quietly eff)) as [eff1|e]; cbn [and_then]; [|done].
    unfold on_effect. cbn [set_effects effects]. rewrite lookup_insert_eq.
    by destruct (q_play eff1).
Qed.

Lemma render_row_strict r (w : MainWindow) : (render_row r w).1 = row_outcome r.
Proof.
  unfold render_row, row_outcome, rowCount. unfold mbind, M_bind, lift.
  rewrite insertRow_last.
  destruct (getitem r "date") as [date|]; cbn [and_then]; [|done].
  destruct (QTableWidgetItem date) as [it0|]; cbn [and_then]; [|done].
  rewrite setItem_last.
  destruct (getitem r "category") as [category|]; cbn [and_then]; [|done].
  destruct (QTableWidgetItem category) as [it1|]; cbn [and_then]; [|done].
  rewrite setItem_last.
  destruct (getitem r "description") as [description|]; cbn [and_then]; [|done].
  destruct (QTableWidgetItem (py_or description (VStr ""))) as [desc|];
    cbn [and_then]; [|done].
  rewrite setItem_last.
  destruct (getitem r "amount") as [amount|]; cbn [and_then]; [|done].
  destruct (fmt_2f amount) as [amount_text|]; cbn [and_then outcome]; [|done].
  cbn [QTableWidgetItem]. by rewrite setItem_last, setRowHeight_last.
Qed.

Lemma for_each_render_frame rows (w : MainWindow) :
  ∃ t, (for_each rows render_row w).2 = set_table t w.
Proof.
  apply (for_each_preserves (λ s : MainWindow, ∃ t, s = set_table t w)).
  - intros r s [t ->]. destruct (render_row_frame r (set_table t w)) as [row ->].
    by eexists.
  - exists (table w). by destruct w.
Qed.

Lemma reload_strict (w : MainWindow) : (reload w).1 = reload_outcome w.
Proof.
  unfold reload, reload_outcome, _current_y_m, on_disk, on_sfx, setRowCount,
    _set_emf_ui.
  unfold mbind, M_bind, zoom, modify, lift, raise. cbn.
  destruct (list_month _ _ _) as [[rows|e] d1]; cbn; [|done].
  pose proof (for_each_outcome rows render_row row_outcome render_row_strict
                (set_table [] (set_disk d1 w))) as Hout.
  destruct (for_each_render_frame rows (set_table [] (set_disk d1 w))) as [t Hframe].
  destruct (for_each rows render_row _) as [res w1]. cbn in Hout, Hframe.
  subst res w1.
  destruct (all_ok (row_outcome <$> rows)) as [[]|e]; cbn [and_then]; [|done].
  cbn. destruct (get_settings d1) as [[settings|e] d2]; cbn; [|done].
  destruct (getitem settings "currency") as [cur|e]; cbn [and_then]; [|done].
  destruct (month_total _ _ d2) as [[total|e] d3]; cbn; [|done].
  destruct (colors_lookup _ (emf_level_range total)) as [color ->].
  unfold mbind, M_bind. cbn.
  by destruct (play_for_level _ _).
Qed.

Lemma on_add_strict v (w : MainWindow) :
  on_add true v w =
    match getitem v "date" with
    | Raise e => (Raise e, w)
    | Ok date =>
        match getitem v "category" with
        | Raise e => (Raise e, w)
        | Ok category =>
            match getitem v "description" with
            | Raise e => (Raise e, w)
            | Ok description =>
                match getitem v "amount" with
                | Raise e => (Raise e, w)
                | Ok amount =>
                    match add_expense date category description amount (disk w) with
                    | (Raise e, d1) => (Raise e, set_disk d1 w)
                    | (Ok _, d1) => reload (set_disk d1 w)
                    end
                end
            end
        end
    end.
Proof.
  unfold on_add, on_disk. unfold mbind, M_bind, zoom, lift.
  destruct (getitem v "date"); [|done].
  destruct (getitem v "category"); [|done].
  destruct (getitem v "description"); [|done].
  destruct (getitem v "amount"); [|done].
  by destruct (add_expense _ _ _ _ _) as [[[]|e] d1].
Qed.

Lemma on_manage_strict (w : MainWindow) :
  on_manage w =
    match manage_dialog (cmb_year w) (cmb_month w + 1) (disk w) with
    | (Raise e, d1) => (Raise e, set_disk d1 w)
    | (Ok _, d1) => reload (set_disk d1 w)
    end.
Proof.
  unfold on_manage, _current_y_m, on_disk. unfold mbind, M_bind, zoom. cbn.
  by destruct (manage_dialog _ _ _) as [[[]|e] d1].
Qed.

Lemma on_settings_strict env (w : MainWindow) :
  on_settings env w =
    match settings_dialog (disk w) with
    | (Raise e, d1) => (Raise e, set_disk d1 w)
    | (Ok (ok, en, _), d1) =>
        if ok then reload (set_sfx (set_muted env (negb en) (sfx w)).2 (set_disk d1 w))
        else (Ok tt, set_disk d1 w)
    end.
Proof.
  unfold on_settings, on_disk, on_sfx. unfold mbind, M_bind, zoom.
  destruct (settings_dialog _) as [[[[ok en] cur]|e] d1]; [|done].
  destruct ok; [|done]. cbn [sfx set_disk].
  pose proof (set_muted_returns env (negb en) (sfx w)) as Hret.
  destruct (set_muted env (negb en) (sfx w)) as [res s]. cbn in Hret. by subst res.
Qed.

Lemma on_export_strict path (w : MainWindow) :
  on_export path w =
    match get_settings (disk w) with
    | (Raise e, d1) => (Raise e, set_disk d1 w)
    | (Ok settings, d1) =>
        match getitem settings "currency" with
        | Raise e => (Raise e, set_disk d1 w)
        | Ok cur =>
            if bool_decide (path = "") then (Ok tt, set_disk d1 w)
            else
              match export_month_pdf path (cmb_year w) (cmb_month w + 1) cur d1 with
              | (Ok _, d2) =>
                  (Ok tt, set_shown (shown w ++ [Information "Export" "PDF saved."])
                            (set_disk d2 w))
              | (Raise e, d2) =>
                  (Ok tt, set_shown (shown w ++ [Critical "Export failed" (exn_msg e)])
                            (set_disk d2 w))
              end
        end
    end.
Proof.
  unfold on_export, _current_y_m, on_disk, information, critical.
  unfold mbind, M_bind, zoom, modify, lift, try_except. cbn.
  destruct (get_settings _) as [[settings|e] d1]; cbn; [|done].
  destruct (getitem settings "currency") as [cur|e]; cbn; [|done].
  case_bool_decide; [done|].
  by destruct (export_month_pdf _ _ _ _ _) as [[[]|e] d2].
Qed.
End Strict.

(** C5, as amended.  Exceptions are handled at three places and nowhere
    else.  [on_export] catches whatever [export_month_pdf] raises, shows a
    critical message box with its text (an information box when the export
    returns) and returns either way; [EMFSound.stop] swallows whatever a
    clip's [stop()] raises, leaves that clip as it is and returns; the
    import of [QSoundEffect] is guarded and only clears [HAVE_SOUND].
    Everywhere else the first exception ends the operation and leaves it
    unchanged: the outcome of [reload], of the body of its loop, of
    [play_for_level], of the constructor and of the construction of a clip
    is that of their calls made one after the other with nothing caught;
    [on_add], [on_manage], [on_settings] and, before its [try],
    [on_export] pass on the exception of the store at each call and
    otherwise end in [reload], whose outcome is theirs; [set_muted], which
    calls nothing but [stop], returns. *)
Theorem error_handling_sites {backend : SoundBackend} {host : Host}
    {modules : AppModules} (env : SoundEnv) (w : MainWindow) :
  (∀ path,
     on_export path w =
       match get_settings (disk w) with
       | (Raise e, d1) => (Raise e, set_disk d1 w)
       | (Ok settings, d1) =>
           match getitem settings "currency" with
           | Raise e => (Raise e, set_disk d1 w)
           | Ok cur =>
               if bool_decide (path = "") then (Ok tt, set_disk d1 w)
               else
                 match export_month_pdf path (cmb_year w) (cmb_month w + 1) cur d1 with
                 | (Ok _, d2) =>
                     (Ok tt, set_shown (shown w ++ [Information "Export" "PDF saved."])
                               (set_disk d2 w))
                 | (Raise e, d2) =>
                     (Ok tt, set_shown (shown w ++ [Critical "Export failed" (exn_msg e)])
                               (set_disk d2 w))
                 end
           end
       end) ∧
  (∀ self, stop self = (Ok tt, stopped self)) ∧
  (∀ s e, q_stop s = Raise e → stop_quietly s = s) ∧
  (∀ e, have_sound_of_import (Raise e) = false) ∧
  (reload w).1 = reload_outcome w ∧
  (∀ r, (render_row r w).1 = row_outcome r) ∧
  (∀ v,
     on_add true v w =
       match getitem v "date" with
       | Raise e => (Raise e, w)
       | Ok date =>
           match getitem v "category" with
           | Raise e => (Raise e, w)
           | Ok category =>
               match getitem v "description" with
               | Raise e => (Raise e, w)
               | Ok description =>
                   match getitem v "amount" with
                   | Raise e => (Raise e, w)
                   | Ok amount =>
                       match add_expense date category description amount (disk w) with
                       | (Raise e, d1) => (Raise e, set_disk d1 w)
                       | (Ok _, d1) => reload (set_disk d1 w)
                       end
                   end
               end
           end
       end) ∧
  on_manage w =
    match manage_dialog (cmb_year w) (cmb_month w + 1) (disk w) with
    | (Raise e, d1) => (Raise e, set_disk d1 w)
    | (Ok _, d1) => reload (set_disk d1 w)
    end ∧
  on_settings env w =
    match settings_dialog (disk w) with
    | (Raise e, d1) => (Raise e, set_disk d1 w)
    | (Ok (ok, en, _), d1) =>
        if ok then reload (set_sfx (set_muted env (negb en) (sfx w)).2 (set_disk d1 w))
        else (Ok tt, set_disk d1 w)
    end ∧
  (∀ level self, (play_for_level level self).1 = play_outcome level self) ∧
  (∀ muted self, (set_muted env muted self).1 = Ok tt) ∧
  (∀ assets_dir en,
     outcome (EMFSound_init env assets_dir en) = init_outcome env assets_dir en) ∧
  (∀ src, new_effect src = new_effect_outcome src).
Proof.
  split_and!.
  - intros path. apply on_export_strict.
  - apply stop_run.
  - apply stop_quietly_raise.
  - done.
  - apply reload_strict.
  - intros r. apply render_row_strict.
  - intros v. apply on_add_strict.
  - apply on_manage_strict.
  - apply on_settings_strict.
  - apply play_for_level_strict.
  - apply set_muted_returns.
  - apply init_strict.
  - apply new_effect_strict.
Qed.

Lemma error_handling_sites_witness :
  on_export "may.pdf" (mem_window true)
  = (Ok tt, set_shown [Critical "Export failed" "Permission denied"] (mem_window true)) ∧
  (reload (backend := qt) (host := plain_host) torn_window).1
  = Raise (Exn "KeyError" "date") ∧
  (play_for_level (backend := qt_stop_raises) 3 sound_at_2).1 = Ok tt.
Proof.
  destruct (error_handling_sites (backend := qt) (host := plain_host) full_env
              (mem_window true)) as (Hexport & _).
  destruct (error_handling_sites (backend := qt) (host := plain_host) full_env
              torn_window) as (_ & _ & _ & _ & Hreload & _).
  destruct (error_handling_sites (backend := qt_stop_raises) (host := plain_host) full_env
              (mem_window true)) as (_ & _ & _ & _ & _ & _ & _ & _ & _ & Hplay & _).
  split; [|split].
  - rewrite Hexport. vm_compute. reflexivity.
  - rewrite Hreload. vm_compute. reflexivity.
  - rewrite Hplay. vm_compute. reflexivity.
Defined.
